(** * Realtime task board: lock manager, expiry scheduler, reorder
      coordinator, offline queue and replay engine

    A shallow embedding of the coordination core of the task board.

    - [Backend] embeds [services/lockService.ts], the task routes of
      [routes/tasks.ts] and the tick of [scheduler/lockExpiry.ts] as
      computations over an explicit server world: the Prisma tables, the
      history of the batches committed with [$transaction], the list of
      Socket.IO broadcasts and the wall clock.
    - [Frontend] embeds [lib/offlineQueue.ts], [hooks/useOfflineQueue.ts],
      the socket handlers and the [onTaskCreated] / [onTaskUpdated]
      reconciliation of [pages/BoardPage.tsx] as [hooks/useSocket.ts]
      subscribes them, and the offline branch of
      [components/CreateTaskForm.tsx].  A request of the tab delivers the
      broadcasts the server emitted while serving it to the socket handlers
      before the response is handled.

    Instants are milliseconds since the epoch ([Date.now()]), identifiers are
    strings, and tables are finite maps keyed by primary key. *)

From stdpp Require Import gmap strings list sorting pretty.

Open Scope Z_scope.

(* ===================================================================== *)
(** * Backend *)
(* ===================================================================== *)

Module Backend.

(** ** Tables *)

Inductive TStatus := TODO | PROGRESS | DONE.

Global Instance TStatus_eq_dec : EqDecision TStatus.
Proof. solve_decision. Defined.

(** A user as the API exposes it: [{ id, name, email }]. *)
Record User := mkUser { userId : string; userName : string; userEmail : string }.

Global Instance User_eq_dec : EqDecision User.
Proof. solve_decision. Defined.

(** A row of the user table; the primary key [id] is the key of the table. *)
Record UserRow := mkUserRow { rowName : string; rowEmail : string }.

(** A row of the task table; the primary key [id] is the key of the table.
    The two locks are the two parallel triples of columns of the source. *)
Record TaskRow := mkTaskRow {
  title : string;
  description : option string;
  status : TStatus;
  orderId : Z;
  isLocked : bool;
  lockAcquiredBy : option string;
  lockAcquireTime : option Z;
  isEditLocked : bool;
  editLockAcquiredBy : option string;
  editLockAcquireTime : option Z;
}.

Global Instance TaskRow_eq_dec : EqDecision TaskRow.
Proof. solve_decision. Defined.

(** The database.  Besides the two tables it keeps the history of what the
    batches of [prisma.$transaction([...])] committed: the task table as each
    committed batch left it, oldest first.  Nothing reads this history; it is
    what tells one committed batch from two. *)
Record Db := mkDb {
  tasks : gmap string TaskRow;
  users : gmap string UserRow;
  batchCommits : list (gmap string TaskRow);
}.

(** The relation fields [lockedBy] / [editLockedBy] of a task are the user
    row its foreign key [lockAcquiredBy] / [editLockAcquiredBy] points to. *)
Definition findUser (d : Db) (uid : string) : option User :=
  (λ r, mkUser uid (rowName r) (rowEmail r)) <$> users d !! uid.

Definition relation (d : Db) (fk : option string) : option User :=
  fk ≫= findUser d.

(** ** The two locks of a task

    [lockService.ts] has every function twice, once over the drag-drop
    columns and once over the edit columns; the bodies differ only in the
    columns they touch and in the event names.  The embedding writes each
    body once over a lock kind. *)

Inductive LockKind := DragLock | EditLock.

Global Instance LockKind_eq_dec : EqDecision LockKind.
Proof. solve_decision. Defined.

Definition held (k : LockKind) (t : TaskRow) : bool :=
  match k with DragLock => isLocked t | EditLock => isEditLocked t end.

Definition holder (k : LockKind) (t : TaskRow) : option string :=
  match k with DragLock => lockAcquiredBy t | EditLock => editLockAcquiredBy t end.

Definition acquiredAt (k : LockKind) (t : TaskRow) : option Z :=
  match k with DragLock => lockAcquireTime t | EditLock => editLockAcquireTime t end.

(** [data: { isLocked: b, lockAcquiredBy: h, lockAcquireTime: a }] and its
    edit twin. *)
Definition setLock (k : LockKind) (b : bool) (h : option string) (a : option Z)
    (t : TaskRow) : TaskRow :=
  match k with
  | DragLock =>
      mkTaskRow (title t) (description t) (status t) (orderId t)
                b h a
                (isEditLocked t) (editLockAcquiredBy t) (editLockAcquireTime t)
  | EditLock =>
      mkTaskRow (title t) (description t) (status t) (orderId t)
                (isLocked t) (lockAcquiredBy t) (lockAcquireTime t)
                b h a
  end.

Definition setOrderId (o : Z) (t : TaskRow) : TaskRow :=
  mkTaskRow (title t) (description t) (status t) o
            (isLocked t) (lockAcquiredBy t) (lockAcquireTime t)
            (isEditLocked t) (editLockAcquiredBy t) (editLockAcquireTime t).

Definition setStatus (s : TStatus) (t : TaskRow) : TaskRow :=
  mkTaskRow (title t) (description t) s (orderId t)
            (isLocked t) (lockAcquiredBy t) (lockAcquireTime t)
            (isEditLocked t) (editLockAcquiredBy t) (editLockAcquireTime t).

(** [data: updateData] of the title route: a field that is absent from the
    request leaves the column as it is. *)
Definition setContent (ti : option string) (de : option string) (t : TaskRow) : TaskRow :=
  mkTaskRow (default (title t) ti)
            (match de with Some d => Some d | None => description t end)
            (status t) (orderId t)
            (isLocked t) (lockAcquiredBy t) (lockAcquireTime t)
            (isEditLocked t) (editLockAcquiredBy t) (editLockAcquireTime t).

(** A task as the API returns it, with both relations included. *)
Record TaskView := mkTaskView {
  viewId : string;
  viewRow : TaskRow;
  viewLockedBy : option User;
  viewEditLockedBy : option User;
}.

Definition view (d : Db) (tid : string) (t : TaskRow) : TaskView :=
  mkTaskView tid t (relation d (lockAcquiredBy t)) (relation d (editLockAcquiredBy t)).

(** ** Broadcasts *)

Inductive SocketEvent :=
  | LockAcquiredEv (k : LockKind) (taskId : string) (lockedBy : option User)
      (* 'task:lock_acquired' / 'task:edit_lock_acquired' *)
  | LockReleasedEv (k : LockKind) (taskId : string)
      (* 'task:lock_released' / 'task:edit_lock_released' *)
  | LockExpiredEv (k : LockKind) (taskId : string)
      (* 'task:lock_expired' / 'task:edit_lock_expired' *)
  | TaskCreatedEv (t : TaskView)                  (* 'task:created' *)
  | TaskUpdatedEv (t : TaskView)                  (* 'task:updated' *)
  | TaskReorderedEv (l : list (string * Z))       (* 'task:reordered' *)
  | TaskDeletedEv (taskId : string).              (* 'task:deleted' *)

(** ** The server world and its computations *)

Record World := mkWorld {
  db : Db;
  emitted : list SocketEvent;   (* every [io.emit], oldest first *)
  clock : Z;                    (* what [Date.now()] / [new Date()] reads *)
  freshIds : list string;       (* ids the database hands to new rows *)
  orderSeq : Z;                 (* next default [orderId] of a new row *)
}.

Inductive Error :=
  | TASK_NOT_FOUND       (* [new Error('TASK_NOT_FOUND')] *)
  | RecordNotFound       (* Prisma: the row to update or delete does not exist *)
  | NoFreshId.           (* the database cannot allocate a row *)

Inductive Outcome (A : Type) :=
  | Ok (a : A)
  | Throw (e : Error).
Global Arguments Ok {A} a.
Global Arguments Throw {A} e.

(** An [async] function of the server: it reads and writes the world and
    either returns or throws. *)
Definition M (A : Type) : Type := World → Outcome A * World.

Definition ret {A} (a : A) : M A := λ w, (Ok a, w).

Definition bind {A B} (m : M A) (f : A → M B) : M B :=
  λ w, match m w with
       | (Ok a, w') => f a w'
       | (Throw e, w') => (Throw e, w')
       end.

Definition throw {A} (e : Error) : M A := λ w, (Throw e, w).

Definition tryCatch {A} (m : M A) (h : Error → M A) : M A :=
  λ w, match m w with
       | (Ok a, w') => (Ok a, w')
       | (Throw e, w') => h e w'
       end.

Declare Scope srv_scope.
Delimit Scope srv_scope with srv.
Notation "x <- m ;; k" := (bind m (λ x, k))
  (at level 100, m at next level, right associativity) : srv_scope.
Notation "m ;;; k" := (bind m (λ _, k))
  (at level 100, right associativity) : srv_scope.
Local Open Scope srv_scope.

Definition withDb (f : Db → Db) (w : World) : World :=
  mkWorld (f (db w)) (emitted w) (clock w) (freshIds w) (orderSeq w).

Definition withTasks (f : gmap string TaskRow → gmap string TaskRow) (d : Db) : Db :=
  mkDb (f (tasks d)) (users d) (batchCommits d).

(** [prisma.$transaction]: the writes of a body that throws are rolled
    back. *)
Definition transaction {A} (m : M A) : M A :=
  λ w, match m w with
       | (Ok a, w') => (Ok a, w')
       | (Throw e, w') => (Throw e, withDb (λ _, db w) w')
       end.

Definition getDb : M Db := λ w, (Ok (db w), w).

(** [new Date()] *)
Definition newDate : M Z := λ w, (Ok (clock w), w).

(** [io.emit(...)] *)
Definition emit (e : SocketEvent) : M unit :=
  λ w, (Ok tt, mkWorld (db w) (emitted w ++ [e]) (clock w) (freshIds w) (orderSeq w)).

(** [prisma.task.findUnique({ where: { id } })] *)
Definition findUnique (tid : string) : M (option TaskRow) :=
  λ w, (Ok (tasks (db w) !! tid), w).

(** [prisma.task.update({ where: { id }, data })]: throws when the row is
    absent, otherwise writes the row and returns it. *)
Definition update (tid : string) (f : TaskRow → TaskRow) : M TaskRow :=
  λ w, match tasks (db w) !! tid with
       | Some t => (Ok (f t), withDb (withTasks (insert tid (f t))) w)
       | None => (Throw RecordNotFound, w)
       end.

(** [prisma.task.delete({ where: { id } })] *)
Definition deleteRow (tid : string) : M unit :=
  λ w, match tasks (db w) !! tid with
       | Some _ => (Ok tt, withDb (withTasks (delete tid)) w)
       | None => (Throw RecordNotFound, w)
       end.

(** [prisma.task.findMany({ where })], rows paired with their ids. *)
Definition findMany (p : string → TaskRow → bool) : M (list (string * TaskRow)) :=
  λ w, (Ok (filter (λ kt, p kt.1 kt.2 = true) (map_to_list (tasks (db w)))), w).

(** ** [services/lockService.ts] *)

Record LockResult := mkLockResult {
  success : bool;
  lockedBy : option User;
}.

Definition acquire (k : LockKind) (taskId userId : string) : M LockResult :=
  result <- transaction (
    task <- findUnique taskId ;;
    match task with
    | None => throw TASK_NOT_FOUND
    | Some task =>
        d <- getDb ;;
        if held k task && negb (bool_decide (holder k task = Some userId)) then
          ret (mkLockResult false (relation d (holder k task)))
        else if held k task && bool_decide (holder k task = Some userId) then
          ret (mkLockResult true None)
        else
          now <- newDate ;;
          update taskId (setLock k true (Some userId) (Some now)) ;;;
          ret (mkLockResult true None)
    end) ;;
  (if success result then
     d <- getDb ;;
     emit (LockAcquiredEv k taskId (findUser d userId))
   else ret tt) ;;;
  ret result.

Definition release (k : LockKind) (taskId userId : string) : M bool :=
  task <- findUnique taskId ;;
  match task with
  | None => ret false
  | Some task =>
      if negb (held k task) then ret false
      else if negb (bool_decide (holder k task = Some userId)) then ret false
      else
        update taskId (setLock k false None None) ;;;
        emit (LockReleasedEv k taskId) ;;;
        ret true
  end.

Definition forceRelease (k : LockKind) (taskId : string) : M bool :=
  task <- findUnique taskId ;;
  match task with
  | None => ret false
  | Some task =>
      if negb (held k task) then ret false
      else
        update taskId (setLock k false None None) ;;;
        emit (LockExpiredEv k taskId) ;;;
        ret true
  end.

Definition acquireLock : string → string → M LockResult := acquire DragLock.
Definition releaseLock : string → string → M bool := release DragLock.
Definition forceReleaseLock : string → M bool := forceRelease DragLock.
Definition acquireEditLock : string → string → M LockResult := acquire EditLock.
Definition releaseEditLock : string → string → M bool := release EditLock.
Definition forceReleaseEditLock : string → M bool := forceRelease EditLock.

(** ** Running several computations *)

(** [prisma.$transaction([q1, ..., qn])]: the queries run in order inside
    one transaction; the first one that throws aborts the batch and the
    whole batch is rolled back. *)
Fixpoint sequence {A} (ms : list (M A)) : M (list A) :=
  match ms with
  | [] => ret []
  | m :: ms => a <- m ;; r <- sequence ms ;; ret (a :: r)
  end.

(** The commit of a batch: the task table as it stands enters the
    history. *)
Definition commitBatch (d : Db) : Db :=
  mkDb (tasks d) (users d) (batchCommits d ++ [tasks d]).

Definition transactionBatch {A} (ms : list (M A)) : M (list A) :=
  λ w, match transaction (sequence ms) w with
       | (Ok rs, w') => (Ok rs, withDb commitBatch w')
       | (Throw e, w') => (Throw e, w')
       end.

(** [Promise.all(ps)]: every promise runs to its end whatever the others
    do; the result rejects with the first rejection, if any.  The promises
    of the scheduler touch one row each, and are run here in list order. *)
Fixpoint promiseAll {A} (ms : list (M A)) : M (list A) :=
  match ms with
  | [] => ret []
  | m :: ms =>
      λ w, match m w with
           | (Ok a, w') => (r <- promiseAll ms ;; ret (a :: r)) w'
           | (Throw e, w') => (promiseAll ms ;;; throw e) w'
           end
  end.

(** ** [scheduler/lockExpiry.ts] *)

Definition LOCK_EXPIRY_MS : Z := 2 * 60 * 1000.

(** [where: { isLocked: true, lockAcquireTime: { lt: expiryThreshold } }];
    a null instant is below no threshold. *)
Definition expiredAt (k : LockKind) (expiryThreshold : Z) (t : TaskRow) : bool :=
  held k t &&
  match acquiredAt k t with
  | Some a => bool_decide (a < expiryThreshold)
  | None => false
  end.

Definition expireLocks (k : LockKind) (expiryThreshold : Z) : M unit :=
  expiredTasks <- findMany (λ _ t, expiredAt k expiryThreshold t) ;;
  if bool_decide (0 < length expiredTasks)%nat then
    promiseAll (map (λ task, forceRelease k task.1) expiredTasks) ;;;
    ret tt
  else ret tt.

(** The callback that [startLockExpiryScheduler] registers with
    [cron.schedule('*/30 * * * * *', ...)]: one tick. *)
Definition schedulerTick : M unit :=
  tryCatch (
    now <- newDate ;;
    let expiryThreshold := now - LOCK_EXPIRY_MS in
    expireLocks DragLock expiryThreshold ;;;
    expireLocks EditLock expiryThreshold)
  (λ _, ret tt).

(** ** [routes/tasks.ts] *)

Inductive Body :=
  | TaskBody (t : TaskView)
  | ReorderedBody (l : list (string * Z))       (* [{ id, orderId }] *)
  | SuccessBody (b : bool)                      (* { success } *)
  | DeniedBody (lockedBy : option User)         (* { success: false, lockedBy } *)
  | ErrorBody (msg : string).                   (* { error } *)

Record Response := mkResponse { code : Z; body : Body }.

Definition validationError : Response := mkResponse 400 (ErrorBody "validation").
Definition notFound : Response := mkResponse 404 (ErrorBody "Task not found").
Definition internalError : Response := mkResponse 500 (ErrorBody "Internal server error").
Definition forbidden (msg : string) : Response := mkResponse 403 (ErrorBody msg).
Definition okJson (b : Body) : Response := mkResponse 200 b.

Section Routes.

(** [z.string().uuid()]: the shape test of the validation library. *)
Variable isUuid : string → bool.

(** *** [PATCH /reorder] *)

Record ReorderRequest := mkReorderRequest {
  reqTaskId : string;
  reqUserId : string;
  orderedIds : list string;
}.

Definition OFFSET : Z := 100000.

(** One batch of the reorder: row [id] at [index] gets [base + index + 1]. *)
Definition renumber (base : Z) (ids : list string) : M (list TaskRow) :=
  transactionBatch
    (imap (λ index id, update id (setOrderId (base + Z.of_nat index + 1))) ids).

Definition patchReorder (req : ReorderRequest) : M Response :=
  if negb (isUuid (reqTaskId req) && isUuid (reqUserId req)
           && forallb isUuid (orderedIds req)) then ret validationError
  else
  let taskId := reqTaskId req in
  let userId := reqUserId req in
  tryCatch (
    taskCheck <- findUnique taskId ;;
    match taskCheck with
    | None => ret notFound
    | Some taskCheck =>
        if negb (isLocked taskCheck)
           || negb (bool_decide (lockAcquiredBy taskCheck = Some userId)) then
          ret (forbidden "You must acquire the lock before reordering")
        else
          renumber OFFSET (orderedIds req) ;;;
          renumber 0 (orderedIds req) ;;;
          releaseLock taskId userId ;;;
          updatedTasks <- findMany (λ id _, bool_decide (id ∈ orderedIds req)) ;;
          let updatedTasks := map (λ kt, (kt.1, orderId kt.2)) updatedTasks in
          emit (TaskReorderedEv updatedTasks) ;;;
          ret (okJson (ReorderedBody updatedTasks))
    end)
  (λ _, ret internalError).

(** *** [DELETE /:id] *)

Definition deleteTask (deleteId : string) : M Response :=
  tryCatch (
    deleteRow deleteId ;;;
    emit (TaskDeletedEv deleteId) ;;;
    ret (okJson (SuccessBody true)))
  (λ _, ret internalError).

(** *** [POST /:id/lock], [DELETE /:id/lock] and the edit-lock twins *)

Definition postLock (k : LockKind) (id userId : string) : M Response :=
  if negb (isUuid userId) then ret validationError
  else
  tryCatch (
    result <- acquire k id userId ;;
    if success result then ret (okJson (SuccessBody true))
    else ret (mkResponse 409 (DeniedBody (lockedBy result))))
  (λ err,
    match err with
    | TASK_NOT_FOUND => ret notFound
    | _ => ret internalError
    end).

Definition deleteLock (k : LockKind) (id userId : string) : M Response :=
  if negb (isUuid userId) then ret validationError
  else
  tryCatch (
    released <- release k id userId ;;
    ret (okJson (SuccessBody released)))
  (λ _, ret internalError).

(** *** [PATCH /:id/status] *)

Definition patchStatus (taskId : string) (st : TStatus) (userId : string) : M Response :=
  if negb (isUuid userId) then ret validationError
  else
  tryCatch (
    taskCheck <- findUnique taskId ;;
    match taskCheck with
    | None => ret notFound
    | Some taskCheck =>
        if negb (isLocked taskCheck)
           || negb (bool_decide (lockAcquiredBy taskCheck = Some userId)) then
          ret (forbidden "You must acquire the lock before changing status")
        else
          task <- update taskId (setStatus st) ;;
          d <- getDb ;;
          let task := mkTaskView taskId task (relation d (lockAcquiredBy task)) None in
          releaseLock taskId userId ;;;
          emit (TaskUpdatedEv
                  (mkTaskView taskId (setLock DragLock false None None (viewRow task))
                              None None)) ;;;
          ret (okJson (TaskBody task))
    end)
  (λ _, ret internalError).

(** *** [PATCH /:id/title] *)

Definition patchTitle (id : string) (ti de : option string) (userId : string) : M Response :=
  if negb (isUuid userId && bool_decide (ti ≠ Some EmptyString)) then ret validationError
  else
  tryCatch (
    taskCheck <- findUnique id ;;
    match taskCheck with
    | None => ret notFound
    | Some taskCheck =>
        if negb (isEditLocked taskCheck)
           || negb (bool_decide (editLockAcquiredBy taskCheck = Some userId)) then
          ret (forbidden "You must acquire the edit lock before editing")
        else
          task <- update id (setContent ti de) ;;
          d <- getDb ;;
          let task := view d id task in
          releaseEditLock id userId ;;;
          emit (TaskUpdatedEv
                  (mkTaskView id (setLock EditLock false None None (viewRow task))
                              (viewLockedBy task) None)) ;;;
          ret (okJson (TaskBody task))
    end)
  (λ _, ret internalError).

(** *** [POST /] *)

(** Modelled from the spec: the Prisma schema, which fixes the defaults of
    [prisma.task.create], is not part of the sources.  The defaults of a new
    row are taken from the world: the primary key is the next fresh id, the
    order index the next value of a sequence, and both locks start free
    ([FREE] is the initial state of a lock). *)
Definition createRow (ti : string) (de : option string) (st : TStatus) : M TaskView :=
  λ w, match freshIds w with
       | [] => (Throw NoFreshId, w)
       | id :: rest =>
           let row := mkTaskRow ti de st (orderSeq w) false None None false None None in
           (Ok (mkTaskView id row None None),
            mkWorld (withTasks (insert id row) (db w)) (emitted w) (clock w)
                    rest (orderSeq w + 1))
       end.

Definition postTask (ti : string) (de : option string) (st : option TStatus) : M Response :=
  if bool_decide (ti = EmptyString) then ret validationError
  else
  tryCatch (
    task <- createRow ti de (default TODO st) ;;
    emit (TaskCreatedEv task) ;;;
    ret (mkResponse 201 (TaskBody task)))
  (λ _, ret internalError).

End Routes.

End Backend.

(* ===================================================================== *)
(** * Frontend *)
(* ===================================================================== *)

Module Frontend.
Import Backend.

(** ** [types.ts] *)

(** A task on the board: what the server sent, or a local placeholder,
    flagged by [_isOptimistic]. *)
Record Task := mkTask {
  shown : TaskView;
  _isOptimistic : bool;
}.

Definition taskId (t : Task) : string := viewId (shown t).
Definition taskTitle (t : Task) : string := title (viewRow (shown t)).

(** A task of a server response: the flag is absent, hence falsy. *)
Definition fromServer (v : TaskView) : Task := mkTask v false.

(** ** [lib/offlineQueue.ts] *)

(** [type] and [payload] of a queued event. *)
Inductive QueuedEvent :=
  | CREATE_TASK (title : string) (description : option string) (tempId : string)
  | UPDATE_TITLE (taskId title : string) (description : option string) (userId : string)
  | UPDATE_STATUS (taskId : string) (status : TStatus) (userId : string)
  | REORDER_TASKS (taskId userId : string) (orderedIds : list string)
  | DELETE_TASK (taskId : string).

Record StoredQueuedEvent := mkStored {
  id : nat;             (* the IndexedDB key *)
  enqueuedAt : Z;       (* Date.now() at enqueue *)
  event : QueuedEvent;
}.

Global Instance QueuedEvent_eq_dec : EqDecision QueuedEvent.
Proof. solve_decision. Defined.
Global Instance StoredQueuedEvent_eq_dec : EqDecision StoredQueuedEvent.
Proof. solve_decision. Defined.

(** The object store ['events'] ([keyPath: 'id', autoIncrement: true]):
    its records by key, and the key generator. *)
Record ObjectStore := mkObjectStore {
  records : gmap nat (Z * QueuedEvent);
  keyGenerator : nat;
}.

Definition emptyStore : ObjectStore := mkObjectStore ∅ 1.

(** [Array.prototype.sort((a, b) => key(a) - key(b))]: a stable sort,
    ascending in the key. *)
Fixpoint insertBy {A} (key : A → Z) (x : A) (l : list A) : list A :=
  match l with
  | [] => [x]
  | y :: l' => if bool_decide (key x ≤ key y) then x :: y :: l'
               else y :: insertBy key x l'
  end.

Definition sortBy {A} (key : A → Z) (l : list A) : list A :=
  foldr (insertBy key) [] l.

(** [db.getAll(STORE)]: every record, in ascending key order. *)
Definition getAll (st : ObjectStore) : list StoredQueuedEvent :=
  sortBy (λ r, Z.of_nat (id r))
         ((λ kr, mkStored kr.1 kr.2.1 kr.2.2) <$> map_to_list (records st)).

(** [db.add(STORE, record)] *)
Definition add (enqueuedAt : Z) (ev : QueuedEvent) (st : ObjectStore) : nat * ObjectStore :=
  (keyGenerator st,
   mkObjectStore (<[keyGenerator st := (enqueuedAt, ev)]> (records st))
                 (S (keyGenerator st))).

Definition enqueueEvent (now : Z) (ev : QueuedEvent) (st : ObjectStore) : nat * ObjectStore :=
  add now ev st.

Definition getAllEvents (st : ObjectStore) : list StoredQueuedEvent :=
  sortBy enqueuedAt (getAll st).

Definition removeEvent (id : nat) (st : ObjectStore) : ObjectStore :=
  mkObjectStore (delete id (records st)) (keyGenerator st).

Definition clearQueue (st : ObjectStore) : ObjectStore :=
  mkObjectStore ∅ (keyGenerator st).

Definition countEvents (st : ObjectStore) : nat := size (records st).

(** ** [api.ts] *)

(** The JSON of a lock endpoint: [{ success, lockedBy? }], or an error
    body without a [success] field. *)
Record LockData := mkLockData {
  lockSuccess : option bool;
  lockLockedBy : option User;
}.

(** How an HTTP request ends for axios: a 2xx response, another response, or
    no response at all. *)
Inductive Reply (A E : Type) :=
  | Replied (data : A)
  | Failed (data : E)
  | NoReply.
Global Arguments Replied {A E} data.
Global Arguments Failed {A E} data.
Global Arguments NoReply {A E}.

(** The server as the client sees it: one method per endpoint that [api.ts]
    calls. *)
Class Server (S : Type) := {
  serveCreate : string → option string → S → Reply TaskView () * S;
  serveTitle : string → string → option string → string → S → Reply TaskView () * S;
  serveStatus : string → TStatus → string → S → Reply TaskView () * S;
  serveReorder : string → string → list string → S → Reply (list (string * Z)) () * S;
  serveDelete : string → S → Reply () () * S;
  serveAcquire : LockKind → string → string → S → Reply LockData LockData * S;
  serveRelease : LockKind → string → string → S → Reply bool () * S;
  (** every [io.emit] of the server so far, oldest first *)
  emittedBy : S → list SocketEvent;
}.

(** The requests of [api.ts], as they go out. *)
Inductive Request :=
  | CreateTaskReq (title : string) (description : option string)
  | UpdateTitleReq (id title : string) (description : option string) (userId : string)
  | UpdateStatusReq (id : string) (status : TStatus) (userId : string)
  | ReorderTasksReq (taskId userId : string) (orderedIds : list string)
  | DeleteTaskReq (id : string)
  | AcquireReq (k : LockKind) (id userId : string)
  | ReleaseReq (k : LockKind) (id userId : string).

Inductive ToastType := info | error | success.

(** What the client does to the outside, in the order it does it. *)
Inductive Effect :=
  | Sent (r : Request)                               (* a request of [api.ts] *)
  | Toasted (message : string) (type : ToastType)    (* [showToast] *)
  | Removed (id : nat).                              (* [db.delete(STORE, id)] *)

Global Instance Request_eq_dec : EqDecision Request.
Proof. solve_decision. Defined.
Global Instance ToastType_eq_dec : EqDecision ToastType.
Proof. solve_decision. Defined.
Global Instance Effect_eq_dec : EqDecision Effect.
Proof. solve_decision. Defined.

Section Client.
Context {S : Type} `{!Server S}.

(** The state of one browser tab. *)
Record Client := mkClient {
  queue : ObjectStore;          (* IndexedDB *)
  tasks : list Task;            (* BoardPage: [useState<Task[]>] *)
  isFlushing : bool;            (* useOfflineQueue: [useRef(false)] *)
  isSyncing : bool;
  queueLength : nat;
  isOnline : bool;
  now : Z;                      (* what [Date.now()] reads *)
  effects : list Effect;
  server : S;
}.

Definition setQueue (f : ObjectStore → ObjectStore) (c : Client) : Client :=
  mkClient (f (queue c)) (tasks c) (isFlushing c) (isSyncing c) (queueLength c)
           (isOnline c) (now c) (effects c) (server c).
Definition setTasks (f : list Task → list Task) (c : Client) : Client :=
  mkClient (queue c) (f (tasks c)) (isFlushing c) (isSyncing c) (queueLength c)
           (isOnline c) (now c) (effects c) (server c).
Definition setIsFlushing (b : bool) (c : Client) : Client :=
  mkClient (queue c) (tasks c) b (isSyncing c) (queueLength c)
           (isOnline c) (now c) (effects c) (server c).
Definition setIsSyncing (b : bool) (c : Client) : Client :=
  mkClient (queue c) (tasks c) (isFlushing c) b (queueLength c)
           (isOnline c) (now c) (effects c) (server c).
Definition setQueueLength (n : nat) (c : Client) : Client :=
  mkClient (queue c) (tasks c) (isFlushing c) (isSyncing c) n
           (isOnline c) (now c) (effects c) (server c).
Definition setServer (s : S) (c : Client) : Client :=
  mkClient (queue c) (tasks c) (isFlushing c) (isSyncing c) (queueLength c)
           (isOnline c) (now c) (effects c) s.
(** The environment of the tab: connectivity and the clock. *)
Definition setIsOnline (b : bool) (c : Client) : Client :=
  mkClient (queue c) (tasks c) (isFlushing c) (isSyncing c) (queueLength c)
           b (now c) (effects c) (server c).
Definition setNow (time : Z) (c : Client) : Client :=
  mkClient (queue c) (tasks c) (isFlushing c) (isSyncing c) (queueLength c)
           (isOnline c) time (effects c) (server c).
Definition perform (e : Effect) (c : Client) : Client :=
  mkClient (queue c) (tasks c) (isFlushing c) (isSyncing c) (queueLength c)
           (isOnline c) (now c) (effects c ++ [e]) (server c).

(** An [async] function of the client: it fulfils or rejects. *)
Inductive Settled (A : Type) :=
  | Fulfilled (a : A)
  | Rejected.
Global Arguments Fulfilled {A} a.
Global Arguments Rejected {A}.

Definition P (A : Type) : Type := Client → Settled A * Client.

Definition ret {A} (a : A) : P A := λ c, (Fulfilled a, c).
Definition reject {A} : P A := λ c, (Rejected, c).
Definition bind {A B} (m : P A) (f : A → P B) : P B :=
  λ c, match m c with
       | (Fulfilled a, c') => f a c'
       | (Rejected, c') => (Rejected, c')
       end.
(** A synchronous state change, such as a [setState]. *)
Definition act (f : Client → Client) : P () := λ c, (Fulfilled (), f c).

Declare Scope cli_scope.
Delimit Scope cli_scope with cli.
Notation "x <- m ;; k" := (bind m (λ x, k))
  (at level 100, m at next level, right associativity) : cli_scope.
Notation "m ;;; k" := (bind m (λ _, k))
  (at level 100, right associativity) : cli_scope.
Local Open Scope cli_scope.

(** [try { m } catch { h }] *)
Definition tryCatch {A} (m : P A) (h : P A) : P A :=
  λ c, match m c with
       | (Fulfilled a, c') => (Fulfilled a, c')
       | (Rejected, c') => h c'
       end.

(** [try { m } finally { f }]: [f] runs either way, then [m]'s end stands. *)
Definition tryFinally {A} (m : P A) (f : P ()) : P A :=
  λ c, match m c with
       | (Fulfilled a, c') => (f ;;; ret a) c'
       | (Rejected, c') => (f ;;; reject) c'
       end.

(** [p.catch(() => {})] *)
Definition bestEffort {A} (m : P A) : P () :=
  tryCatch (m ;;; ret ()) (ret ()).

(** ** [pages/BoardPage.tsx]: the handlers given to [useSocket] *)

Definition showToast (message : string) (type : ToastType) : Client → Client :=
  perform (Toasted message type).

(** [{ ...t, <columns> }]: a card with columns of its row replaced. *)
Definition withRow (f : TaskRow → TaskRow) (t : Task) : Task :=
  mkTask (mkTaskView (viewId (shown t)) (f (viewRow (shown t)))
                     (viewLockedBy (shown t)) (viewEditLockedBy (shown t)))
         (_isOptimistic t).

(** [{ ...t, lockedBy }] and [{ ...t, editLockedBy }] *)
Definition withLockedBy (k : LockKind) (u : option User) (t : Task) : Task :=
  match k with
  | DragLock =>
      mkTask (mkTaskView (viewId (shown t)) (viewRow (shown t)) u
                         (viewEditLockedBy (shown t)))
             (_isOptimistic t)
  | EditLock =>
      mkTask (mkTaskView (viewId (shown t)) (viewRow (shown t))
                         (viewLockedBy (shown t)) u)
             (_isOptimistic t)
  end.

(** [prev.map((t) => (t.id === id ? f(t) : t))] *)
Definition mapCard (cardId : string) (f : Task → Task) (prev : list Task) : list Task :=
  (λ t, if bool_decide (taskId t = cardId) then f t else t) <$> prev.

(** The socket handler of ['task:created']. *)
Definition handleTaskCreated (task : Task) : Client → Client :=
  setTasks (λ prev,
    match list_find (λ t, taskId t = taskId task) prev with
    | Some _ => prev
    | None => prev ++ [task]
    end).

Definition handleTaskUpdated (updated : Task) : Client → Client :=
  setTasks (mapCard (taskId updated) (λ _, updated)).

Definition handleTaskReordered (updates : list (string * Z)) : Client → Client :=
  setTasks (λ prev,
    (λ t, match list_find (λ x, x.1 = taskId t) updates with
          | Some (_, u) => withRow (setOrderId u.2) t
          | None => t
          end) <$> prev).

(** [handleLockAcquired] and [handleEditLockAcquired], written once over the
    lock kind as the lock service is: the card takes the flag, the holder
    ([data.lockedBy?.id ?? null]) and the relation; the position twin leaves
    the instant of the card alone, the edit twin writes the clock of the
    tab. *)
Definition lockAcquired (k : LockKind) (cardId : string) (lockedBy : option User)
    : Client → Client :=
  λ c, setTasks (mapCard cardId (λ t,
         withLockedBy k lockedBy
           (withRow (λ r, setLock k true (userId <$> lockedBy)
                            (match k with
                             | DragLock => lockAcquireTime r
                             | EditLock => Some (now c)
                             end) r) t))) c.

(** [handleLockReleased] and [handleEditLockReleased] *)
Definition lockReleased (k : LockKind) (cardId : string) : Client → Client :=
  setTasks (mapCard cardId (λ t,
    withLockedBy k None (withRow (setLock k false None None) t))).

Definition expiredMessage (k : LockKind) : string :=
  match k with
  | DragLock => "A lock expired and was auto-released"
  | EditLock => "An edit lock expired and was auto-released"
  end.

(** [handleLockExpired] and [handleEditLockExpired] *)
Definition lockExpired (k : LockKind) (cardId : string) : Client → Client :=
  λ c, showToast (expiredMessage k) info (lockReleased k cardId c).

Definition handleLockAcquired := lockAcquired DragLock.
Definition handleLockReleased := lockReleased DragLock.
Definition handleLockExpired := lockExpired DragLock.
Definition handleEditLockAcquired := lockAcquired EditLock.
Definition handleEditLockReleased := lockReleased EditLock.
Definition handleEditLockExpired := lockExpired EditLock.

Definition handleTaskDeleted (deletedId : string) : Client → Client :=
  setTasks (λ prev, filter (λ t, taskId t ≠ deletedId) prev).

(** ** [hooks/useSocket.ts]: the handler each broadcast is wired to *)

Definition deliver (e : SocketEvent) : Client → Client :=
  match e with
  | TaskCreatedEv t => handleTaskCreated (fromServer t)
  | TaskUpdatedEv t => handleTaskUpdated (fromServer t)
  | TaskReorderedEv u => handleTaskReordered u
  | LockAcquiredEv DragLock cardId u => handleLockAcquired cardId u
  | LockAcquiredEv EditLock cardId u => handleEditLockAcquired cardId u
  | LockReleasedEv DragLock cardId => handleLockReleased cardId
  | LockReleasedEv EditLock cardId => handleEditLockReleased cardId
  | LockExpiredEv DragLock cardId => handleLockExpired cardId
  | LockExpiredEv EditLock cardId => handleEditLockExpired cardId
  | TaskDeletedEv deletedId => handleTaskDeleted deletedId
  end.

(** The broadcasts of a list, handled oldest first. *)
Definition deliverAll (evs : list SocketEvent) (c : Client) : Client :=
  foldl (λ c e, deliver e c) c evs.

(** ** [api.ts], continued *)

(** What the server [s'] has broadcast beyond what [s] had. *)
Definition broadcastsSince (s s' : S) : list SocketEvent :=
  drop (length (emittedBy s)) (emittedBy s').

(** One request: it is sent, and the server answers or does not.  The
    server emits its broadcasts before it writes its response (as in
    [io.emit('task:created', task); res.status(201).json(task)]), and the tab
    is on the socket while it replays; the socket handlers of the tab run on
    the broadcasts of the request, in the order the server sent them, before
    the awaited response is handled. *)
Definition request {A E} (r : Request) (serve : S → Reply A E * S) : P (Reply A E) :=
  λ c, let c := perform (Sent r) c in
       let '(reply, s) := serve (server c) in
       (Fulfilled reply, deliverAll (broadcastsSince (server c) s) (setServer s c)).

(** [api.verb(...).then((r) => r.data)]: axios rejects on anything but a 2xx
    response. *)
Definition thenData {A E} (m : P (Reply A E)) : P A :=
  reply <- m ;;
  match reply with
  | Replied data => ret data
  | _ => reject
  end.

Definition createTask (title : string) (description : option string) : P Task :=
  t <- thenData (request (CreateTaskReq title description) (serveCreate title description)) ;;
  ret (fromServer t).

Definition updateTitle (id title : string) (description : option string) (userId : string)
    : P Task :=
  t <- thenData (request (UpdateTitleReq id title description userId)
                         (serveTitle id title description userId)) ;;
  ret (fromServer t).

Definition updateStatus (id : string) (status : TStatus) (userId : string) : P Task :=
  t <- thenData (request (UpdateStatusReq id status userId) (serveStatus id status userId)) ;;
  ret (fromServer t).

Definition reorderTasks (taskId userId : string) (orderedIds : list string)
    : P (list (string * Z)) :=
  thenData (request (ReorderTasksReq taskId userId orderedIds)
                    (serveReorder taskId userId orderedIds)).

Definition deleteTask (id : string) : P () :=
  thenData (request (DeleteTaskReq id) (serveDelete id)) ;;; ret ().

(** [.then((r) => r.data).catch((e) => e.response?.data)]: never rejects;
    without a response the value is [undefined]. *)
Definition acquire (k : LockKind) (id userId : string) : P (option LockData) :=
  reply <- request (AcquireReq k id userId) (serveAcquire k id userId) ;;
  match reply with
  | Replied data => ret (Some data)
  | Failed data => ret (Some data)
  | NoReply => ret None
  end.

Definition release (k : LockKind) (id userId : string) : P bool :=
  thenData (request (ReleaseReq k id userId) (serveRelease k id userId)).

Definition acquireLock := acquire DragLock.
Definition releaseLock := release DragLock.
Definition acquireEditLock := acquire EditLock.
Definition releaseEditLock := release EditLock.

(** [lockRes.success]: reading a field of [undefined] throws; a body without
    the field reads as falsy. *)
Definition readSuccess (lockRes : option LockData) : P bool :=
  match lockRes with
  | None => reject
  | Some data => ret (default false (lockSuccess data))
  end.

(** ** [pages/BoardPage.tsx]: what the page hands to the offline queue *)

(** The [onTaskCreated] that the page hands to the offline queue hook. *)
Definition onTaskCreated (task : Task) : Client → Client :=
  setTasks (λ prev,
    match list_find (λ t, _isOptimistic t = true ∧ taskTitle t = taskTitle task) prev with
    | Some (firstPendingIdx, _) => <[firstPendingIdx := task]> prev
    | None =>
        match list_find (λ t, taskId t = taskId task) prev with
        | Some _ => prev
        | None => prev ++ [task]
        end
    end).

Definition onTaskUpdated (task : Task) : Client → Client :=
  setTasks (λ prev, (λ t, if bool_decide (taskId t = taskId task) then task else t) <$> prev).

Definition addOptimisticTask (task : Task) : Client → Client :=
  setTasks (λ prev, prev ++ [task]).

Definition removeOptimisticTask (id : string) : Client → Client :=
  setTasks (λ prev, filter (λ t, taskId t ≠ id) prev).

(** ** [hooks/useOfflineQueue.ts] *)

Definition refreshCount (c : Client) : Client :=
  setQueueLength (countEvents (queue c)) c.

Definition enqueue (ev : QueuedEvent) (c : Client) : Client :=
  refreshCount (setQueue (λ q, (enqueueEvent (now c) ev q).2) c).

(** [await removeEvent(ev.id)] *)
Definition remove (id : nat) : P () :=
  act (λ c, setQueue (removeEvent id) (perform (Removed id) c)).

Definition toast (message : string) (type : ToastType) : P () :=
  act (showToast message type).

Definition titleConflict : string :=
  "Could not sync title edit for task — edit locked by another user, skipped".
Definition statusConflict : string :=
  "Could not sync status change — task is locked by another user, skipped".
Definition reorderConflict : string :=
  "Could not sync reorder — task is locked by another user, skipped".

(** The body of the [try] of [replayOne]: the value is what the function
    returns, a rejection is what its [catch] will see. *)
Definition replayBody (ev : StoredQueuedEvent) : P bool :=
  match event ev with
  | CREATE_TASK title description _ =>
      task <- createTask title description ;;
      act (onTaskCreated task) ;;;
      ret true
  | UPDATE_TITLE taskId title description userId =>
      lockRes <- acquireEditLock taskId userId ;;
      granted <- readSuccess lockRes ;;
      if negb granted then
        toast titleConflict error ;;; ret false
      else
        tryFinally (task <- updateTitle taskId title description userId ;;
                    act (onTaskUpdated task))
                   (bestEffort (releaseEditLock taskId userId)) ;;;
        ret true
  | UPDATE_STATUS taskId status userId =>
      lockRes <- acquireLock taskId userId ;;
      granted <- readSuccess lockRes ;;
      if negb granted then
        toast statusConflict error ;;; ret false
      else
        tryCatch (task <- updateStatus taskId status userId ;;
                  act (onTaskUpdated task))
                 (bestEffort (releaseLock taskId userId) ;;; reject) ;;;
        ret true
  | REORDER_TASKS taskId userId orderedIds =>
      lockRes <- acquireLock taskId userId ;;
      granted <- readSuccess lockRes ;;
      if negb granted then
        toast reorderConflict error ;;; ret false
      else
        tryCatch (reorderTasks taskId userId orderedIds ;;; ret ())
                 (bestEffort (releaseLock taskId userId) ;;; reject) ;;;
        ret true
  | DELETE_TASK taskId =>
      deleteTask taskId ;;;
      ret true
  end.

Definition replayOne (ev : StoredQueuedEvent) : P bool :=
  tryCatch (replayBody ev) (ret false).

(** [for (const ev of events) { ... }] of [flushQueue]. *)
Fixpoint replayAll (events : list StoredQueuedEvent) : P () :=
  match events with
  | [] => ret ()
  | ev :: events =>
      succeeded <- replayOne ev ;;
      (if succeeded then remove (id ev) else ret ()) ;;;
      replayAll events
  end.

(** [for (const ev of leftovers) await removeEvent(ev.id)] *)
Fixpoint removeAll (leftovers : list StoredQueuedEvent) : P () :=
  match leftovers with
  | [] => ret ()
  | ev :: leftovers => remove (id ev) ;;; removeAll leftovers
  end.

Definition plural (n : nat) : string := if bool_decide (1 < n)%nat then "s" else "".

Definition syncingMessage (n : nat) : string :=
  "Syncing " +:+ pretty n +:+ " offline change" +:+ plural n +:+ "…".
Definition syncedMessage : string := "All offline changes synced!".
Definition discardedMessage (remaining : nat) : string :=
  pretty remaining +:+ " change" +:+ plural remaining
    +:+ " could not be synced and were discarded".

Definition getEvents : P (list StoredQueuedEvent) :=
  λ c, (Fulfilled (getAllEvents (queue c)), c).

Definition flushQueue : P () :=
  λ c,
  if isFlushing c then (Fulfilled (), c)
  else
    (act (setIsFlushing true) ;;;
     act (setIsSyncing true) ;;;
     tryFinally (
       events <- getEvents ;;
       if bool_decide (length events = 0%nat) then ret ()
       else
         toast (syncingMessage (length events)) info ;;;
         replayAll events ;;;
         remaining <- (λ c, (Fulfilled (countEvents (queue c)), c)) ;;
         (if bool_decide (remaining = 0%nat) then
            toast syncedMessage success
          else
            toast (discardedMessage remaining) error ;;;
            leftovers <- getEvents ;;
            removeAll leftovers) ;;;
         act (setQueueLength 0))
       (act (setIsSyncing false) ;;; act (setIsFlushing false))) c.

(** ** [components/CreateTaskForm.tsx] and [components/TaskCard.tsx] *)

(** The placeholder card of an offline creation. *)
Definition optimisticTask (tempId title : string) (now : Z) : Task :=
  mkTask (mkTaskView tempId
            (mkTaskRow title None TODO now false None None false None None)
            None None)
         true.

Section Form.
(** [String.prototype.trim] *)
Variable trim : string → string.

(** [handleSubmit], for the text [title] of the input; [randomUUID] is what
    [crypto.randomUUID()] returns.  The form's own [loading] and [title]
    states are left out. *)
Definition handleSubmit (title : string) (randomUUID : string) : P () :=
  λ c,
  if bool_decide (trim title = EmptyString) then (Fulfilled (), c)
  else if negb (isOnline c) then
    (let tempId := randomUUID in
     act (addOptimisticTask (optimisticTask tempId (trim title) (now c))) ;;;
     act (enqueue (CREATE_TASK (trim title) None tempId)) ;;;
     toast "Task queued — will sync when back online" info) c
  else
    tryCatch (createTask (trim title) None ;;; ret ())
             (toast "Failed to create task" error) c.
End Form.

(** [handleDelete] of the card of [task]. *)
Definition handleDelete (task : Task) : P () :=
  λ c,
  if negb (isOnline c) then
    ((if negb (_isOptimistic task)
      then act (enqueue (DELETE_TASK (taskId task))) else ret ()) ;;;
     act (removeOptimisticTask (taskId task)) ;;;
     toast "Delete queued — will sync when back online" info) c
  else
    tryCatch (deleteTask (taskId task)) (toast "Failed to delete task" error) c.

End Client.

Global Arguments Client S : clear implicits.
Global Arguments P S A : clear implicits.

End Frontend.

(* ===================================================================== *)
(** * The client wired to the backend *)
(* ===================================================================== *)

Module Wiring.
Import Backend Frontend.

Section Wire.
Variable isUuid : string → bool.

(** A handler's response as axios receives it.  A handler that throws past
    its own [catch] never answers. *)
Definition answered (m : M Response) (w : World) : option Response * World :=
  match m w with
  | (Ok r, w') => (Some r, w')
  | (Throw _, w') => (None, w')
  end.

Definition is2xx (r : Response) : bool :=
  bool_decide (200 ≤ code r) && bool_decide (code r < 300).

Definition taskReply (r : option Response * World) : Reply TaskView () * World :=
  match r with
  | (Some r, w) =>
      (match body r with
       | TaskBody t => if is2xx r then Replied t else Failed ()
       | _ => Failed ()
       end, w)
  | (None, w) => (NoReply, w)
  end.

Definition reorderReply (r : option Response * World)
    : Reply (list (string * Z)) () * World :=
  match r with
  | (Some r, w) =>
      (match body r with
       | ReorderedBody l => if is2xx r then Replied l else Failed ()
       | _ => Failed ()
       end, w)
  | (None, w) => (NoReply, w)
  end.

Definition deleteReply (r : option Response * World) : Reply () () * World :=
  match r with
  | (Some r, w) => (if is2xx r then Replied () else Failed (), w)
  | (None, w) => (NoReply, w)
  end.

Definition lockJson (b : Body) : LockData :=
  match b with
  | SuccessBody s => mkLockData (Some s) None
  | DeniedBody u => mkLockData (Some false) u
  | _ => mkLockData None None
  end.

Definition acquireReply (r : option Response * World) : Reply LockData LockData * World :=
  match r with
  | (Some r, w) => (if is2xx r then Replied (lockJson (body r)) else Failed (lockJson (body r)), w)
  | (None, w) => (NoReply, w)
  end.

Definition releaseReply (r : option Response * World) : Reply bool () * World :=
  match r with
  | (Some r, w) =>
      (match body r with
       | SuccessBody s => if is2xx r then Replied s else Failed ()
       | _ => Failed ()
       end, w)
  | (None, w) => (NoReply, w)
  end.

(** [api.ts] against [routes/tasks.ts]. *)
Definition backend : Server World := {|
  serveCreate ti de w := taskReply (answered (postTask ti de None) w);
  serveTitle id ti de uid w :=
    taskReply (answered (patchTitle isUuid id (Some ti) de uid) w);
  serveStatus id st uid w := taskReply (answered (patchStatus isUuid id st uid) w);
  serveReorder tid uid ids w :=
    reorderReply (answered (patchReorder isUuid (mkReorderRequest tid uid ids)) w);
  serveDelete id w := deleteReply (answered (Backend.deleteTask id) w);
  serveAcquire k id uid w := acquireReply (answered (postLock isUuid k id uid) w);
  serveRelease k id uid w := releaseReply (answered (deleteLock isUuid k id uid) w);
  emittedBy := emitted;
|}.

End Wire.
End Wiring.

(* ===================================================================== *)
(** * Concrete boards used by the examples *)
(* ===================================================================== *)

Module Scenario.
Import Backend.

(** The shape of a UUID: 8-4-4-4-12 hexadecimal digits. *)
Definition isHex (a : Ascii.ascii) : bool :=
  let n := Ascii.nat_of_ascii a in
  ((48 <=? n) && (n <=? 57) || (65 <=? n) && (n <=? 70) || (97 <=? n) && (n <=? 102))%nat.

Definition uuidShape (s : string) : bool :=
  let l := String.list_ascii_of_string s in
  (length l =? 36)%nat &&
  forallb (λ ia, if bool_decide (ia.1 ∈ [8; 13; 18; 23]%nat)
                 then bool_decide (Ascii.nat_of_ascii ia.2 = 45%nat) else isHex ia.2)
          (imap pair l).

Definition alice : string := "a11ce000-0000-4000-8000-000000000001".
Definition bob : string := "b0b00000-0000-4000-8000-000000000002".
Definition carol : string := "ca501000-0000-4000-8000-000000000003".

Definition t1 : string := "00000000-0000-4000-8000-0000000000a1".
Definition t2 : string := "00000000-0000-4000-8000-0000000000a2".
Definition t3 : string := "00000000-0000-4000-8000-0000000000a3".
Definition t4 : string := "00000000-0000-4000-8000-0000000000a4".
Definition t5 : string := "00000000-0000-4000-8000-0000000000a5".

Definition people : gmap string UserRow :=
  <[alice := mkUserRow "Alice" "alice@example.com"]>
  (<[bob := mkUserRow "Bob" "bob@example.com"]> ∅).

Definition card (ti : string) (o : Z) : TaskRow :=
  mkTaskRow ti None TODO o false None None false None None.

(** Five unlocked cards in one column, in the order 1..5. *)
Definition column : gmap string TaskRow :=
  <[t1 := card "one" 1]> (<[t2 := card "two" 2]> (<[t3 := card "three" 3]>
  (<[t4 := card "four" 4]> (<[t5 := card "five" 5]> ∅)))).

Definition t0 : Z := 1700000000000.

Definition board (ts : gmap string TaskRow) (time : Z) : World :=
  mkWorld (mkDb ts people []) [] time [] 6.

(** Alice holds the given lock of card [t1] since [t0]. *)
Definition heldByAlice (k : LockKind) : World :=
  board (<[t1 := setLock k true (Some alice) (Some t0) (card "one" 1)]> column) (t0 + 1000).

(** Alice drags the fifth card of the column to the top. *)
Definition draggingFive : World :=
  board (<[t5 := setLock DragLock true (Some alice) (Some t0) (card "five" 5)]> column)
        (t0 + 1000).

Definition fiveToTop : ReorderRequest := mkReorderRequest t5 alice [t5; t1; t2; t3; t4].

End Scenario.

(* ===================================================================== *)
(** * Notions the properties are stated with *)
(* ===================================================================== *)

Module Notions.
Import Backend.

(** What the claims call the state of a lock. *)
Definition HeldBy (k : LockKind) (w : World) (taskId h : string) : Prop :=
  ∃ t, tasks (db w) !! taskId = Some t ∧ held k t = true ∧ holder k t = Some h.

Definition Held (k : LockKind) (w : World) (taskId : string) : Prop :=
  ∃ t, tasks (db w) !! taskId = Some t ∧ held k t = true.

Definition Free (k : LockKind) (w : World) (taskId : string) : Prop :=
  ∃ t, tasks (db w) !! taskId = Some t
       ∧ held k t = false ∧ holder k t = None ∧ acquiredAt k t = None.

Global Instance HeldBy_dec k w taskId h : Decision (HeldBy k w taskId h).
Proof.
  unfold HeldBy. destruct (tasks (db w) !! taskId) as [t|].
  - destruct (decide (held k t = true ∧ holder k t = Some h)) as [Hd|Hd].
    + left. by exists t.
    + right. intros (t' & [= <-] & ? & ?). by apply Hd.
  - right. by intros (t' & [=] & _).
Defined.

Global Instance Held_dec k w taskId : Decision (Held k w taskId).
Proof.
  unfold Held. destruct (tasks (db w) !! taskId) as [t|].
  - destruct (decide (held k t = true)) as [Hd|Hd].
    + left. by exists t.
    + right. intros (t' & [= <-] & ?). by apply Hd.
  - right. by intros (t' & [=] & _).
Defined.

(** The source names of the operations on a lock of kind [k]. *)
Definition acquireOf (k : LockKind) : string → string → M LockResult :=
  match k with DragLock => acquireLock | EditLock => acquireEditLock end.
Definition releaseOf (k : LockKind) : string → string → M bool :=
  match k with DragLock => releaseLock | EditLock => releaseEditLock end.
Definition forceReleaseOf (k : LockKind) : string → M bool :=
  match k with DragLock => forceReleaseLock | EditLock => forceReleaseEditLock end.

(** The world after the lock of kind [k] of row [t] was freed and [ev]
    broadcast. *)
Definition freed (k : LockKind) (taskId : string) (t : TaskRow) (ev : SocketEvent)
    (w : World) : World :=
  mkWorld (withTasks (insert taskId (setLock k false None None t)) (db w))
          (emitted w ++ [ev]) (clock w) (freshIds w) (orderSeq w).

(** A lock that the scheduler must reclaim at instant [now]: held, with an
    instant of acquisition more than two minutes old. *)
Definition Stale (k : LockKind) (now : Z) (t : TaskRow) : Prop :=
  held k t = true ∧ ∃ a, acquiredAt k t = Some a ∧ a < now - 2 * 60 * 1000.

(** The task table once the locks of kind [k] of the rows of [l] are freed. *)
Definition expireRows (k : LockKind) (l : list (string * TaskRow))
    (m : gmap string TaskRow) : gmap string TaskRow :=
  foldl (λ m it, <[it.1 := setLock k false None None it.2]> m) m l.

(** The same world at a later reading of the clock. *)
Definition atTime (time : Z) (w : World) : World :=
  mkWorld (db w) (emitted w) time (freshIds w) (orderSeq w).

End Notions.

Module ReplayNotions.
Import Backend Frontend.

(** The entries of the store, in no particular order. *)
Definition stored (st : ObjectStore) : list StoredQueuedEvent :=
  (λ kr, mkStored kr.1 kr.2.1 kr.2.2) <$> map_to_list (records st).

(** Ascending in [enqueuedAt]. *)
Definition Fifo (l : list StoredQueuedEvent) : Prop :=
  StronglySorted (λ a b, enqueuedAt a ≤ enqueuedAt b) l.

(** The requests one entry can cause, in the order [replayOne] issues
    them. *)
Definition callsFor (ev : QueuedEvent) : list Request :=
  match ev with
  | CREATE_TASK ti de _ => [CreateTaskReq ti de]
  | UPDATE_TITLE tid ti de uid =>
      [AcquireReq EditLock tid uid; UpdateTitleReq tid ti de uid;
       ReleaseReq EditLock tid uid]
  | UPDATE_STATUS tid st uid =>
      [AcquireReq DragLock tid uid; UpdateStatusReq tid st uid;
       ReleaseReq DragLock tid uid]
  | REORDER_TASKS tid uid ids =>
      [AcquireReq DragLock tid uid; ReorderTasksReq tid uid ids;
       ReleaseReq DragLock tid uid]
  | DELETE_TASK tid => [DeleteTaskReq tid]
  end.

(** The lock an entry takes before it mutates, if any. *)
Definition lockFor (ev : QueuedEvent) : option (LockKind * string * string) :=
  match ev with
  | UPDATE_TITLE tid _ _ uid => Some (EditLock, tid, uid)
  | UPDATE_STATUS tid _ uid => Some (DragLock, tid, uid)
  | REORDER_TASKS tid uid _ => Some (DragLock, tid, uid)
  | _ => None
  end.

Definition conflictMessage (ev : QueuedEvent) : string :=
  match ev with
  | UPDATE_TITLE _ _ _ _ => titleConflict
  | UPDATE_STATUS _ _ _ => statusConflict
  | REORDER_TASKS _ _ _ => reorderConflict
  | _ => EmptyString
  end.

(** The requests of an entry whose replay succeeds: the lock, the mutation,
    and for a title edit the release of its [finally]; after a status change
    or a reorder the client sends no release (the server released). *)
Definition callsOnSuccess (ev : QueuedEvent) : list Request :=
  match ev with
  | UPDATE_STATUS tid st uid =>
      [AcquireReq DragLock tid uid; UpdateStatusReq tid st uid]
  | REORDER_TASKS tid uid ids =>
      [AcquireReq DragLock tid uid; ReorderTasksReq tid uid ids]
  | _ => callsFor ev
  end.

(** The toasts of the socket handlers, which may come in between while the
    tab replays. *)
Definition socketToasts : list Effect :=
  [Toasted (expiredMessage DragLock) info; Toasted (expiredMessage EditLock) info].

Definition Noise (es : list Effect) : Prop := Forall (λ e, e ∈ socketToasts) es.

(** The effects of a list that are not toasts of the socket handlers: what
    the hook itself did. *)
Definition own (es : list Effect) : list Effect :=
  filter (λ e, e ∉ socketToasts) es.

(** What [replayOne] does to the outside for one entry, with its outcome:
    - it succeeds after the requests of [callsOnSuccess], and after nothing
      less;
    - it fails after its first request alone (the only one of a creation or
      a deletion; for the others the acquire, when it got no answer), or
      after all the requests of the entry (lock granted, mutation failed,
      lock released);
    - or it fails after the acquire and the conflict toast, when the lock
      was not granted. *)
Inductive Attempt (ev : QueuedEvent) : bool → list Effect → Prop :=
  | attempt_done : Attempt ev true (Sent <$> callsOnSuccess ev)
  | attempt_failed reqs :
      reqs = take 1 (callsFor ev) ∨ reqs = callsFor ev →
      Attempt ev false (Sent <$> reqs)
  | attempt_conflict k taskId userId :
      lockFor ev = Some (k, taskId, userId) →
      Attempt ev false [Sent (AcquireReq k taskId userId);
                        Toasted (conflictMessage ev) error].

(** The turn of one entry in the loop of [flushQueue]: the attempt, then the
    removal of the entry when it succeeded. *)
Inductive Chunk (ev : StoredQueuedEvent) : bool → list Effect → Prop :=
  | chunk_replayed core :
      Attempt (event ev) true core → Chunk ev true (core ++ [Removed (id ev)])
  | chunk_kept core :
      Attempt (event ev) false core → Chunk ev false core.

(** The chunks of a run of entries, one after the other. *)
Inductive Chunks : list StoredQueuedEvent → list bool → list Effect → Prop :=
  | chunks_nil : Chunks [] [] []
  | chunks_cons ev evs b bs ch rest :
      Chunk ev b ch → Chunks evs bs rest →
      Chunks (ev :: evs) (b :: bs) (ch ++ rest).

(** The entries of [evs] whose outcome in [bs] is a failure. *)
Fixpoint skipped (evs : list StoredQueuedEvent) (bs : list bool) : list StoredQueuedEvent :=
  match evs, bs with
  | ev :: evs, b :: bs => if b then skipped evs bs else ev :: skipped evs bs
  | _, _ => []
  end.

(** [lockRes.success] of the answer to an acquire: true only when the
    answer, success or error, carries [success: true]. *)
Definition granted (reply : Reply LockData LockData) : bool :=
  match reply with
  | Replied data | Failed data => default false (lockSuccess data)
  | NoReply => false
  end.

(** The server, from state [s], completes the entry and ends in [s']: it
    grants the lock the entry needs, if any, and answers the mutation with a
    success; for a title edit it has then also handled the release. *)
Definition Completes {S} `{!Server S} (ev : QueuedEvent) (s s' : S) : Prop :=
  match ev with
  | CREATE_TASK ti de _ => ∃ t, serveCreate ti de s = (Replied t, s')
  | UPDATE_TITLE tid ti de uid =>
      ∃ r s1 t s2 r',
        serveAcquire EditLock tid uid s = (r, s1) ∧ granted r = true
        ∧ serveTitle tid ti de uid s1 = (Replied t, s2)
        ∧ serveRelease EditLock tid uid s2 = (r', s')
  | UPDATE_STATUS tid st uid =>
      ∃ r s1 t,
        serveAcquire DragLock tid uid s = (r, s1) ∧ granted r = true
        ∧ serveStatus tid st uid s1 = (Replied t, s')
  | REORDER_TASKS tid uid ids =>
      ∃ r s1 l,
        serveAcquire DragLock tid uid s = (r, s1) ∧ granted r = true
        ∧ serveReorder tid uid ids s1 = (Replied l, s')
  | DELETE_TASK tid => ∃ u, serveDelete tid s = (Replied u, s')
  end.

(** What the replay of an entry leaves alone in the tab. *)
Definition SameTab {S} (c c' : Client S) : Prop :=
  queue c' = queue c ∧ isFlushing c' = isFlushing c ∧ isSyncing c' = isSyncing c
  ∧ queueLength c' = queueLength c ∧ isOnline c' = isOnline c ∧ now c' = now c.

(** The reconciliation the specification describes: the placeholder is the
    one whose id is the entry's [tempId] and whose title is the task's. *)
Definition onTaskCreatedByTempId (tempId : string) (task : Task) (prev : list Task)
    : list Task :=
  match list_find (λ t, _isOptimistic t = true ∧ taskId t = tempId
                        ∧ taskTitle t = taskTitle task) prev with
  | Some (idx, _) => <[idx := task]> prev
  | None =>
      match list_find (λ t, taskId t = taskId task) prev with
      | Some _ => prev
      | None => prev ++ [task]
      end
  end.

End ReplayNotions.

(* ===================================================================== *)
(** * Concrete tabs used by the examples *)
(* ===================================================================== *)

Module TabScenario.
Import Backend Frontend Scenario.

(** The tab talks to the backend of this repository. *)
Global Instance api : Server World := Wiring.backend uuidShape.

Definition t6 : string := "00000000-0000-4000-8000-0000000000a6".
Definition t7 : string := "00000000-0000-4000-8000-0000000000a7".
Definition tmpX : string := "11111111-1111-4111-8111-111111111111".
Definition tmpY : string := "22222222-2222-4222-8222-222222222222".

Definition withFresh (ids : list string) (w : World) : World :=
  mkWorld (db w) (emitted w) (clock w) ids (orderSeq w).

(** [trim] over the space character. *)
Fixpoint dropSpaces (s : string) : string :=
  match s with
  | String a s' => if bool_decide (Ascii.nat_of_ascii a = 32%nat) then dropSpaces s' else s
  | EmptyString => EmptyString
  end.
Definition trim (s : string) : string :=
  String.rev (dropSpaces (String.rev (dropSpaces s))).

(** A tab that comes back online with three queued changes: a status change
    of a card whose position lock Alice holds (queued last, by Bob), a
    creation and a deletion. *)
Definition threeQueued : ObjectStore :=
  (enqueueEvent (t0 + 30) (DELETE_TASK t2)
    (enqueueEvent (t0 + 10) (CREATE_TASK "six" None tmpX)
      (enqueueEvent (t0 + 50) (UPDATE_STATUS t1 DONE bob) emptyStore).2).2).2.

Definition reconnected : Client World :=
  mkClient threeQueued [] false false 3 true (t0 + 1000) []
           (withFresh [t6; t7] (heldByAlice DragLock)).

(** An offline tab in front of the five-card column. *)
Definition offline : Client World :=
  mkClient emptyStore [] false false 0 false t0 []
           (withFresh [t6; t7] (board column t0)).

(** Offline, the user adds a card "A" twice and deletes the first of the two
    placeholders; then the tab reconnects. *)
Definition twoDraftsOneDeleted : Client World :=
  let c1 := (handleSubmit trim "A" tmpX offline).2 in
  let c2 := (handleSubmit trim " A " tmpY (setNow (t0 + 5) c1)).2 in
  let c3 := (handleDelete (optimisticTask tmpX "A" t0) c2).2 in
  setIsOnline true (setNow (t0 + 1000) c3).

(** Scenario D: offline, the user adds a card "A"; then the tab
    reconnects. *)
Definition oneDraft : Client World :=
  setIsOnline true (setNow (t0 + 1000) (handleSubmit trim "A" tmpX offline).2).

(** The queued creation of the first draft. *)
Definition firstDraft : StoredQueuedEvent := mkStored 1 t0 (CREATE_TASK "A" None tmpX).

(** The row the backend creates for it. *)
Definition sixthCard : TaskView :=
  mkTaskView t6 (mkTaskRow "A" None TODO 6 false None None false None None) None None.

(** The queued status change of [reconnected], which Alice's lock blocks. *)
Definition blockedMove : StoredQueuedEvent :=
  mkStored 1 (t0 + 50) (UPDATE_STATUS t1 DONE bob).

End TabScenario.

(* ===================================================================== *)
(** * The lock manager *)
(* ===================================================================== *)

Module LockManagerSpec.
Import Backend Notions.
Local Open Scope srv_scope.

(** Reading a lock back after it was written. *)
Lemma held_setLock k b h a t : held k (setLock k b h a t) = b.
Proof. by destruct k. Qed.

Lemma holder_setLock k b h a t : holder k (setLock k b h a t) = h.
Proof. by destruct k. Qed.

Lemma acquiredAt_setLock k b h a t : acquiredAt k (setLock k b h a t) = a.
Proof. by destruct k. Qed.

(** Writing one lock leaves the other one alone. *)
Lemma setLock_other k k' b h a t :
  k ≠ k' →
  held k' (setLock k b h a t) = held k' t
  ∧ holder k' (setLock k b h a t) = holder k' t
  ∧ acquiredAt k' (setLock k b h a t) = acquiredAt k' t.
Proof. by destruct k, k'. Qed.

(** The three outcomes of [acquire] on an existing task, one lemma each. *)
Lemma acquire_denied k w taskId userId t h :
  tasks (db w) !! taskId = Some t →
  held k t = true →
  holder k t = Some h →
  userId ≠ h →
  acquire k taskId userId w = (Ok (mkLockResult false (findUser (db w) h)), w).
Proof.
  intros Ht Hh Hby Hne.
  unfold acquire, bind, transaction, findUnique, getDb, ret.
  rewrite Ht; simpl. rewrite Hh, Hby; simpl.
  rewrite bool_decide_eq_false_2 by congruence. by simpl.
Qed.

Lemma acquire_again k w taskId userId t :
  tasks (db w) !! taskId = Some t →
  held k t = true →
  holder k t = Some userId →
  acquire k taskId userId w =
    (Ok (mkLockResult true None),
     mkWorld (db w)
             (emitted w ++ [LockAcquiredEv k taskId (findUser (db w) userId)])
             (clock w) (freshIds w) (orderSeq w)).
Proof.
  intros Ht Hh Hby.
  unfold acquire, bind, transaction, findUnique, getDb, ret, emit.
  rewrite Ht; simpl. rewrite Hh, Hby; simpl.
  rewrite bool_decide_eq_true_2 by done. by simpl.
Qed.

Lemma acquire_free k w taskId userId t :
  tasks (db w) !! taskId = Some t →
  held k t = false →
  acquire k taskId userId w =
    (Ok (mkLockResult true None),
     mkWorld (withTasks (insert taskId (setLock k true (Some userId) (Some (clock w)) t)) (db w))
             (emitted w ++ [LockAcquiredEv k taskId (findUser (db w) userId)])
             (clock w) (freshIds w) (orderSeq w)).
Proof.
  intros Ht Hh.
  unfold acquire, bind, transaction, findUnique, getDb, ret, emit, newDate, update.
  rewrite Ht; simpl. rewrite Hh; simpl. by rewrite Ht.
Qed.

Lemma acquire_absent k w taskId userId :
  tasks (db w) !! taskId = None →
  acquire k taskId userId w = (Throw TASK_NOT_FOUND, w).
Proof.
  intros Ht. unfold acquire, bind, transaction, findUnique, throw, withDb.
  rewrite Ht; simpl. by destruct w.
Qed.

(** The outcomes of [release] and [forceRelease]. *)
Lemma release_by_holder k w taskId userId t :
  tasks (db w) !! taskId = Some t →
  held k t = true →
  holder k t = Some userId →
  release k taskId userId w = (Ok true, freed k taskId t (LockReleasedEv k taskId) w).
Proof.
  intros Ht Hh Hby.
  unfold release, bind, findUnique, update, emit, ret.
  rewrite Ht; simpl. rewrite Hh, Hby; simpl.
  rewrite bool_decide_eq_true_2 by done; simpl. by rewrite Ht.
Qed.

Lemma release_refused k w taskId userId :
  (∀ t, tasks (db w) !! taskId = Some t →
        held k t = false ∨ holder k t ≠ Some userId) →
  release k taskId userId w = (Ok false, w).
Proof.
  intros H. unfold release, bind, findUnique, ret.
  destruct (tasks (db w) !! taskId) as [t|] eqn:Ht; simpl; [|done].
  destruct (held k t) eqn:Hh; simpl; [|done].
  destruct (H t eq_refl) as [?|Hne]; [congruence|].
  by rewrite bool_decide_eq_false_2.
Qed.

Lemma forceRelease_held k w taskId t :
  tasks (db w) !! taskId = Some t →
  held k t = true →
  forceRelease k taskId w = (Ok true, freed k taskId t (LockExpiredEv k taskId) w).
Proof.
  intros Ht Hh.
  unfold forceRelease, bind, findUnique, update, emit, ret.
  rewrite Ht; simpl. rewrite Hh; simpl. by rewrite Ht.
Qed.

Lemma forceRelease_idle k w taskId :
  (∀ t, tasks (db w) !! taskId = Some t → held k t = false) →
  forceRelease k taskId w = (Ok false, w).
Proof.
  intros H. unfold forceRelease, bind, findUnique, ret.
  destruct (tasks (db w) !! taskId) as [t|] eqn:Ht; simpl; [|done].
  by rewrite (H t eq_refl).
Qed.

Lemma acquireOf_eq k : acquireOf k = acquire k.
Proof. by destruct k. Qed.
Lemma releaseOf_eq k : releaseOf k = release k.
Proof. by destruct k. Qed.
Lemma forceReleaseOf_eq k : forceReleaseOf k = forceRelease k.
Proof. by destruct k. Qed.

(** C1. A task whose lock (position or edit) is held by [h1]: an acquire by
    another holder [h2] is denied, the denial carries the user [h1], and
    nothing in the world changes, so that [isLocked], [lockAcquiredBy] and
    [lockAcquireTime] (or their edit twins) are as before. *)
Theorem acquire_held_by_other_is_denied
    (k : LockKind) (w : World) (taskId h1 h2 : string) (t : TaskRow) :
  tasks (db w) !! taskId = Some t →
  held k t = true →
  holder k t = Some h1 →
  h2 ≠ h1 →
  ∃ r, acquireOf k taskId h2 w = (Ok r, w)
       ∧ success r = false
       ∧ lockedBy r = findUser (db w) h1
       ∧ (∀ row, users (db w) !! h1 = Some row →
            lockedBy r = Some (mkUser h1 (rowName row) (rowEmail row))).
Proof.
  intros Ht Hh Hby Hne. rewrite acquireOf_eq.
  eexists. split; [by eapply acquire_denied|].
  repeat split. intros row Hrow. simpl. unfold findUser. by rewrite Hrow.
Qed.

Lemma acquire_held_by_other_is_denied_witness :
  ∃ r, acquireLock Scenario.t1 Scenario.bob (Scenario.heldByAlice DragLock)
         = (Ok r, Scenario.heldByAlice DragLock)
       ∧ success r = false
       ∧ lockedBy r = Some (mkUser Scenario.alice "Alice" "alice@example.com").
Proof.
  destruct (acquire_held_by_other_is_denied DragLock (Scenario.heldByAlice DragLock)
              Scenario.t1 Scenario.alice Scenario.bob
              (setLock DragLock true (Some Scenario.alice) (Some Scenario.t0)
                       (Scenario.card "one" 1)))
    as (r & Hrun & Hs & Hby & _).
  - vm_compute. reflexivity.
  - reflexivity.
  - reflexivity.
  - discriminate.
  - exists r. split; [exact Hrun|]. split; [exact Hs|].
    rewrite Hby. vm_compute. reflexivity.
Defined.

(** C3. A task whose lock is already held by [h]: a second acquire by [h]
    succeeds and writes nothing, so that the instant of acquisition and every
    other column are as before; only the broadcast is repeated. *)
Theorem acquire_again_keeps_timestamp
    (k : LockKind) (w : World) (taskId h : string) (t : TaskRow) :
  tasks (db w) !! taskId = Some t →
  held k t = true →
  holder k t = Some h →
  ∃ r w', acquireOf k taskId h w = (Ok r, w')
          ∧ success r = true
          ∧ db w' = db w
          ∧ tasks (db w') !! taskId = Some t.
Proof.
  intros Ht Hh Hby. rewrite acquireOf_eq.
  do 2 eexists. split; [by eapply acquire_again|]. by simpl.
Qed.

Lemma freed_is_free k taskId t ev w : Free k (freed k taskId t ev w) taskId.
Proof.
  exists (setLock k false None None t). simpl.
  rewrite lookup_insert_eq. by destruct k.
Qed.

(** C7. [releaseLock] (and [releaseEditLock]) answers [true] exactly when the
    lock is held by the caller; it then frees that lock, touches no other
    column and no other task, and broadcasts the release.  In every other
    case (another holder, a free lock, no such task) it answers [false] and
    the world is as before. *)
Theorem release_only_by_holder (k : LockKind) (w : World) (taskId h : string) :
  ((releaseOf k taskId h w).1 = Ok true ↔ HeldBy k w taskId h)
  ∧ (HeldBy k w taskId h →
       Free k (releaseOf k taskId h w).2 taskId
       ∧ (∀ t, tasks (db w) !! taskId = Some t →
            tasks (db (releaseOf k taskId h w).2) !! taskId
              = Some (setLock k false None None t))
       ∧ (∀ other, other ≠ taskId →
            tasks (db (releaseOf k taskId h w).2) !! other = tasks (db w) !! other)
       ∧ emitted (releaseOf k taskId h w).2 = emitted w ++ [LockReleasedEv k taskId])
  ∧ (¬ HeldBy k w taskId h → releaseOf k taskId h w = (Ok false, w)).
Proof.
  rewrite releaseOf_eq.
  assert (Hno : ¬ HeldBy k w taskId h → release k taskId h w = (Ok false, w)).
  { intros Hn. apply release_refused. intros t Ht.
    destruct (held k t) eqn:Hh; [right|by left].
    intros Hby. apply Hn. by exists t. }
  assert (Hyes : ∀ t, tasks (db w) !! taskId = Some t → held k t = true →
                   holder k t = Some h →
                   release k taskId h w
                     = (Ok true, freed k taskId t (LockReleasedEv k taskId) w)).
  { intros t Ht Hh Hby. by apply release_by_holder. }
  split; [|split]; [| |done].
  - split.
    + intros Hr. destruct (decide (HeldBy k w taskId h)) as [|Hn]; [done|].
      rewrite (Hno Hn) in Hr. discriminate.
    + intros (t & Ht & Hh & Hby). by rewrite (Hyes t).
  - intros (t & Ht & Hh & Hby). rewrite (Hyes t) by done. simpl.
    split; [apply freed_is_free|]. split; [|split; [|done]].
    + intros t' Ht'. rewrite lookup_insert_eq. congruence.
    + intros other Hne. by rewrite lookup_insert_ne.
Qed.

(** C8. [forceReleaseLock] (and [forceReleaseEditLock]) on a held lock frees
    it and answers [true] whoever the holder is, and broadcasts the expiry,
    which is another event than the release; on a lock that is not held it
    answers [false] and the world is as before; hence a second call right
    after the first changes nothing. *)
Theorem forceRelease_frees_any_holder (k : LockKind) (w : World) (taskId : string) :
  (Held k w taskId →
     (forceReleaseOf k taskId w).1 = Ok true
     ∧ Free k (forceReleaseOf k taskId w).2 taskId
     ∧ (∀ t, tasks (db w) !! taskId = Some t →
          tasks (db (forceReleaseOf k taskId w).2) !! taskId
            = Some (setLock k false None None t))
     ∧ (∀ other, other ≠ taskId →
          tasks (db (forceReleaseOf k taskId w).2) !! other = tasks (db w) !! other)
     ∧ emitted (forceReleaseOf k taskId w).2 = emitted w ++ [LockExpiredEv k taskId]
     ∧ LockExpiredEv k taskId ≠ LockReleasedEv k taskId)
  ∧ (¬ Held k w taskId → forceReleaseOf k taskId w = (Ok false, w))
  ∧ forceReleaseOf k taskId (forceReleaseOf k taskId w).2
      = (Ok false, (forceReleaseOf k taskId w).2).
Proof.
  rewrite forceReleaseOf_eq.
  assert (Hno : ∀ w, ¬ Held k w taskId → forceRelease k taskId w = (Ok false, w)).
  { intros w0 Hn. apply forceRelease_idle. intros t Ht.
    destruct (held k t) eqn:Hh; [|done]. destruct Hn. by exists t. }
  split; [|split].
  - intros (t & Ht & Hh). rewrite (forceRelease_held k w taskId t) by done. simpl.
    split; [done|]. split; [apply freed_is_free|]. split; [|split; [|done]].
    + intros t' Ht'. rewrite lookup_insert_eq. congruence.
    + intros other Hne. by rewrite lookup_insert_ne.
  - apply Hno.
  - apply Hno. destruct (decide (Held k w taskId)) as [(t & Ht & Hh)|Hn].
    + rewrite (forceRelease_held k w taskId t) by done. simpl.
      intros (t' & Ht' & Hh'). simpl in Ht'. rewrite lookup_insert_eq in Ht'.
      simplify_eq. by rewrite held_setLock in Hh'.
    + by rewrite (Hno w Hn).
Qed.

Lemma acquire_again_keeps_timestamp_witness :
  ∃ r w', acquireEditLock Scenario.t1 Scenario.alice (Scenario.heldByAlice EditLock)
            = (Ok r, w')
          ∧ success r = true
          ∧ editLockAcquireTime <$> tasks (db w') !! Scenario.t1
              = Some (Some Scenario.t0).
Proof.
  destruct (acquire_again_keeps_timestamp EditLock (Scenario.heldByAlice EditLock)
              Scenario.t1 Scenario.alice
              (setLock EditLock true (Some Scenario.alice) (Some Scenario.t0)
                       (Scenario.card "one" 1)))
    as (r & w' & Hrun & Hs & _ & Hrow).
  - vm_compute. reflexivity.
  - reflexivity.
  - reflexivity.
  - exists r, w'. split; [exact Hrun|]. split; [exact Hs|]. by rewrite Hrow.
Defined.

Lemma release_only_by_holder_witness :
  releaseLock Scenario.t1 Scenario.bob (Scenario.heldByAlice DragLock)
    = (Ok false, Scenario.heldByAlice DragLock)
  ∧ (releaseLock Scenario.t1 Scenario.alice (Scenario.heldByAlice DragLock)).1 = Ok true.
Proof.
  pose proof (release_only_by_holder DragLock (Scenario.heldByAlice DragLock)
                Scenario.t1 Scenario.bob) as (_ & _ & Hno).
  pose proof (release_only_by_holder DragLock (Scenario.heldByAlice DragLock)
                Scenario.t1 Scenario.alice) as (Hiff & _ & _).
  split.
  - apply Hno. intros (t & Ht & _ & Hby). vm_compute in Ht.
    injection Ht as <-. discriminate Hby.
  - apply Hiff. eexists. split; [vm_compute; reflexivity|]. split; reflexivity.
Defined.

Lemma forceRelease_frees_any_holder_witness :
  (forceReleaseEditLock Scenario.t1 (Scenario.heldByAlice EditLock)).1 = Ok true
  ∧ emitted (forceReleaseEditLock Scenario.t1 (Scenario.heldByAlice EditLock)).2
      = [LockExpiredEv EditLock Scenario.t1]
  ∧ forceReleaseEditLock Scenario.t1 (Scenario.heldByAlice DragLock)
      = (Ok false, Scenario.heldByAlice DragLock).
Proof.
  pose proof (forceRelease_frees_any_holder EditLock (Scenario.heldByAlice EditLock)
                Scenario.t1) as (Hyes & _ & _).
  pose proof (forceRelease_frees_any_holder EditLock (Scenario.heldByAlice DragLock)
                Scenario.t1) as (_ & Hno & _).
  destruct Hyes as (Hr & _ & _ & _ & Hev & _).
  { eexists. split; [vm_compute; reflexivity|reflexivity]. }
  split; [exact Hr|]. split; [exact Hev|].
  apply Hno. intros (t & Ht & Hh). vm_compute in Ht.
  injection Ht as <-. discriminate Hh.
Defined.

End LockManagerSpec.

(* ===================================================================== *)
(** * The expiry scheduler *)
(* ===================================================================== *)

Module SchedulerSpec.
Import Backend Notions LockManagerSpec.
Local Open Scope srv_scope.

Lemma expiredAt_Stale k now t :
  expiredAt k (now - LOCK_EXPIRY_MS) t = true ↔ Stale k now t.
Proof.
  unfold expiredAt, Stale, LOCK_EXPIRY_MS. rewrite andb_true_iff. split.
  - intros [Hh Ha]. split; [done|].
    destruct (acquiredAt k t) as [a|]; [|done].
    exists a. split; [done|]. apply bool_decide_eq_true in Ha. lia.
  - intros [Hh (a & -> & Ha)]. split; [done|]. apply bool_decide_eq_true. lia.
Qed.

Lemma NoDup_fst_filter {A B} (P : A * B → Prop) `{∀ x, Decision (P x)} (l : list (A * B)) :
  NoDup (l.*1) → NoDup ((filter P l).*1).
Proof.
  induction l as [|x l IH]; [done|].
  rewrite fmap_cons, NoDup_cons. intros [Hx Hl].
  rewrite filter_cons. destruct (decide (P x)); [|by apply IH].
  rewrite fmap_cons, NoDup_cons. split; [|by apply IH].
  intros Hin. apply Hx. apply list_elem_of_fmap in Hin as (y & -> & Hy).
  apply list_elem_of_filter in Hy as [_ Hy]. apply list_elem_of_fmap. by exists y.
Qed.

Lemma expireRows_other k l m id :
  id ∉ l.*1 → expireRows k l m !! id = m !! id.
Proof.
  revert m. induction l as [|[i t] l IH]; intros m Hid; [done|].
  rewrite fmap_cons, not_elem_of_cons in Hid. destruct Hid as [Hne Hid].
  simpl in *. rewrite IH by done. by rewrite lookup_insert_ne.
Qed.

Lemma expireRows_member k l m id t :
  NoDup (l.*1) → (id, t) ∈ l →
  expireRows k l m !! id = Some (setLock k false None None t).
Proof.
  revert m. induction l as [|[i t'] l IH]; intros m Hnd Hin.
  - by apply elem_of_nil in Hin.
  - rewrite fmap_cons, NoDup_cons in Hnd. destruct Hnd as [Hi Hnd].
    apply elem_of_cons in Hin as [[= <- <-]|Hin]; simpl in *.
    + rewrite expireRows_other by done. by rewrite lookup_insert_eq.
    + by apply IH.
Qed.

(** Freeing the rows of a list one after the other. *)
Lemma promiseAll_forceRelease k l w :
  NoDup (l.*1) →
  (∀ id t, (id, t) ∈ l → tasks (db w) !! id = Some t ∧ held k t = true) →
  ∃ rs, promiseAll (map (λ task, forceRelease k task.1) l) w =
          (Ok rs,
           mkWorld (withTasks (expireRows k l) (db w))
                   (emitted w ++ map (λ it, LockExpiredEv k it.1) l)
                   (clock w) (freshIds w) (orderSeq w)).
Proof.
  revert w. induction l as [|[i t] l IH]; intros w Hnd Hl.
  - exists []. simpl. unfold ret. destruct w as [[???] ????]; simpl.
    by rewrite app_nil_r.
  - rewrite fmap_cons, NoDup_cons in Hnd. destruct Hnd as [Hi Hnd].
    destruct (Hl i t) as [Ht Hh]; [by left|].
    simpl. rewrite (forceRelease_held k w i t) by done.
    destruct (IH (freed k i t (LockExpiredEv k i) w)) as (rs & Hrs); [done| |].
    { intros id t' Hin. destruct (Hl id t') as [Ht' Hh']; [by right|].
      split; [|done]. simpl. rewrite lookup_insert_ne; [done|].
      intros <-. apply Hi. apply list_elem_of_fmap. by exists (i, t'). }
    exists (true :: rs). unfold bind at 1. rewrite Hrs. unfold ret; simpl.
    by rewrite <- app_assoc.
Qed.

Lemma expireLocks_run k thr w :
  let l := filter (λ kt, expiredAt k thr kt.2 = true) (map_to_list (tasks (db w))) in
  expireLocks k thr w =
    (Ok (),
     mkWorld (withTasks (expireRows k l) (db w))
             (emitted w ++ map (λ it, LockExpiredEv k it.1) l)
             (clock w) (freshIds w) (orderSeq w)).
Proof.
  intros l. unfold expireLocks, bind at 1, findMany. fold l.
  destruct l as [|x l'] eqn:El.
  - simpl. unfold ret. destruct w as [[???] ????]; simpl. by rewrite app_nil_r.
  - rewrite bool_decide_eq_true_2 by (simpl; lia).
    destruct (promiseAll_forceRelease k (x :: l') w) as (rs & Hrs).
    + rewrite <- El. apply NoDup_fst_filter, NoDup_fst_map_to_list.
    + intros id t Hin. rewrite <- El in Hin.
      apply list_elem_of_filter in Hin as [Hp Hin]. simpl in Hp.
      apply elem_of_map_to_list in Hin. split; [done|].
      unfold expiredAt in Hp. by apply andb_true_iff in Hp as [? _].
    + unfold bind. by rewrite Hrs.
Qed.

(** What one sweep over one kind of lock does to each row and to the
    broadcasts. *)
Lemma expireLocks_rows k thr w :
  ∃ w', expireLocks k thr w = (Ok (), w')
    ∧ clock w' = clock w
    ∧ users (db w') = users (db w)
    ∧ (∀ id, tasks (db w') !! id =
         (λ t, if expiredAt k thr t then setLock k false None None t else t)
           <$> tasks (db w) !! id)
    ∧ (∀ ev, ev ∈ emitted w' ↔
         ev ∈ emitted w
         ∨ ∃ id t, ev = LockExpiredEv k id ∧ tasks (db w) !! id = Some t
                   ∧ expiredAt k thr t = true).
Proof.
  eexists. split; [apply expireLocks_run|]. simpl.
  set (l := filter _ _).
  assert (Hnd : NoDup (l.*1)) by apply NoDup_fst_filter, NoDup_fst_map_to_list.
  assert (Hin : ∀ id t, (id, t) ∈ l ↔
            tasks (db w) !! id = Some t ∧ expiredAt k thr t = true).
  { intros id t. unfold l. rewrite list_elem_of_filter, elem_of_map_to_list.
    simpl. tauto. }
  repeat split; try done.
  - intros id. destruct (tasks (db w) !! id) as [t|] eqn:Ht; simpl.
    + destruct (expiredAt k thr t) eqn:He.
      * apply expireRows_member; [done|]. by apply Hin.
      * rewrite expireRows_other; [done|].
        intros Hid. apply list_elem_of_fmap in Hid as ([i t'] & -> & Hit).
        apply Hin in Hit as [Ht' He']. simpl in *. congruence.
    + rewrite expireRows_other; [done|].
      intros Hid. apply list_elem_of_fmap in Hid as ([i t'] & -> & Hit).
      apply Hin in Hit as [Ht' He']. simpl in *. congruence.
  - rewrite elem_of_app. intros [?|Hev]; [by left|right].
    apply list_elem_of_In, in_map_iff in Hev as ([i t] & <- & Hit).
    apply list_elem_of_In, Hin in Hit. by exists i, t.
  - rewrite elem_of_app. intros [?|(id & t & -> & Ht & He)]; [by left|right].
    apply list_elem_of_In, in_map_iff. exists (id, t). split; [done|].
    apply list_elem_of_In, Hin. done.
Qed.

Lemma expiredAt_setLock_other k k' thr b h a t :
  k ≠ k' → expiredAt k' thr (setLock k b h a t) = expiredAt k' thr t.
Proof. by destruct k, k'. Qed.

(** One tick: the sweep of the drag locks, then the sweep of the edit locks,
    both against the threshold read at the start. *)
Lemma schedulerTick_rows w :
  let thr := clock w - LOCK_EXPIRY_MS in
  let sweep k t := if expiredAt k thr t then setLock k false None None t else t in
  ∃ w', schedulerTick w = (Ok (), w')
    ∧ (∀ id, tasks (db w') !! id
             = (λ t, sweep EditLock (sweep DragLock t)) <$> tasks (db w) !! id)
    ∧ (∀ ev, ev ∈ emitted w' ↔
         ev ∈ emitted w
         ∨ ∃ k id t, ev = LockExpiredEv k id ∧ tasks (db w) !! id = Some t
                     ∧ expiredAt k thr t = true).
Proof.
  intros thr sweep.
  destruct (expireLocks_rows DragLock thr w) as (w1 & Hrun1 & Hc1 & _ & Hrows1 & Hev1).
  destruct (expireLocks_rows EditLock thr w1) as (w2 & Hrun2 & Hc2 & _ & Hrows2 & Hev2).
  exists w2. split; [|split].
  - unfold schedulerTick, tryCatch, bind, newDate. fold thr.
    by rewrite Hrun1, Hrun2.
  - intros id. rewrite Hrows2, Hrows1. by destruct (tasks (db w) !! id).
  - intros ev. rewrite Hev2, Hev1. split.
    + intros [[?|(id & t & -> & Ht & He)]|(id & t & -> & Ht & He)].
      * by left.
      * right. by exists DragLock, id, t.
      * right. rewrite Hrows1 in Ht.
        destruct (tasks (db w) !! id) as [t0|] eqn:Ht0; [|done].
        simpl in Ht. injection Ht as <-. exists EditLock, id, t0.
        split; [done|]. split; [done|]. revert He.
        destruct (expiredAt DragLock thr t0); [|done].
        intros He. exact He.
    + intros [?|(k & id & t & -> & Ht & He)]; [by left; left|].
      destruct k.
      * left; right. by exists id, t.
      * right. eexists id, _. split; [done|]. rewrite Hrows1, Ht. simpl.
        split; [done|]. destruct (expiredAt DragLock thr t); [|done].
        exact He.
Qed.

(** C4. One tick of the scheduler at instant [clock w] frees exactly the
    locks, of either kind, that are held since before [clock w] minus two
    minutes, and broadcasts the expiry of exactly those; every other lock and
    every row count stay as they were.  In particular a lock taken at [t0]
    (the instant [acquireLock] / [acquireEditLock] writes is the clock) is
    still held by its holder after a tick at [t0 + 29 s], and is free after
    a tick at [t0 + 121 s], which broadcasts its expiry. *)
Theorem tick_expires_exactly_the_stale_locks (w : World) :
  (schedulerTick w).1 = Ok ()
  ∧ (∀ taskId, tasks (db w) !! taskId = None →
       tasks (db (schedulerTick w).2) !! taskId = None)
  ∧ (∀ taskId t k, tasks (db w) !! taskId = Some t →
       ∃ t', tasks (db (schedulerTick w).2) !! taskId = Some t'
         ∧ (Stale k (clock w) t →
              held k t' = false ∧ holder k t' = None ∧ acquiredAt k t' = None
              ∧ LockExpiredEv k taskId ∈ emitted (schedulerTick w).2)
         ∧ (¬ Stale k (clock w) t →
              held k t' = held k t ∧ holder k t' = holder k t
              ∧ acquiredAt k t' = acquiredAt k t
              ∧ (LockExpiredEv k taskId ∈ emitted (schedulerTick w).2 →
                 LockExpiredEv k taskId ∈ emitted w)))
  ∧ (∀ taskId t k h, tasks (db w) !! taskId = Some t → held k t = false →
       tasks (db (acquireOf k taskId h w).2) !! taskId
         = Some (setLock k true (Some h) (Some (clock w)) t))
  ∧ (∀ taskId t k h t0,
       tasks (db w) !! taskId = Some t →
       held k t = true → holder k t = Some h → acquiredAt k t = Some t0 →
       (clock w = t0 + 29 * 1000 →
          ∃ t', tasks (db (schedulerTick w).2) !! taskId = Some t'
                ∧ held k t' = true ∧ holder k t' = Some h ∧ acquiredAt k t' = Some t0)
       ∧ (clock w = t0 + 121 * 1000 →
          Free k (schedulerTick w).2 taskId
          ∧ LockExpiredEv k taskId ∈ emitted (schedulerTick w).2)).
Proof.
  destruct (schedulerTick_rows w) as (w' & Hrun & Hrows & Hev).
  rewrite Hrun. simpl.
  assert (Hrow : ∀ taskId t k, tasks (db w) !! taskId = Some t →
            ∃ t', tasks (db w') !! taskId = Some t'
              ∧ (Stale k (clock w) t →
                   held k t' = false ∧ holder k t' = None ∧ acquiredAt k t' = None
                   ∧ LockExpiredEv k taskId ∈ emitted w')
              ∧ (¬ Stale k (clock w) t →
                   held k t' = held k t ∧ holder k t' = holder k t
                   ∧ acquiredAt k t' = acquiredAt k t
                   ∧ (LockExpiredEv k taskId ∈ emitted w' →
                      LockExpiredEv k taskId ∈ emitted w))).
  { intros taskId t k Ht. eexists. split; [by rewrite Hrows, Ht|].
    split.
    - intros Hs. apply expiredAt_Stale in Hs as He.
      split; [|split; [|split]].
      1-3: destruct k; simpl; rewrite ?He;
           destruct (expiredAt DragLock _ t) eqn:Hd;
           destruct (expiredAt EditLock _ _) eqn:Hd'; simpl; try done;
           rewrite ?expiredAt_setLock_other in Hd' by done; congruence.
      apply Hev. right. by exists k, taskId, t.
    - intros Hs. rewrite <- expiredAt_Stale in Hs.
      apply not_true_is_false in Hs as He.
      split; [|split; [|split]].
      1-3: destruct k; simpl; rewrite ?He;
           destruct (expiredAt DragLock _ t) eqn:Hd;
           destruct (expiredAt EditLock _ _) eqn:Hd'; simpl; try done;
           rewrite ?expiredAt_setLock_other in Hd' by done; congruence.
      intros Hin. apply Hev in Hin as [?|(k' & id & t1 & [= <- <-] & Ht1 & He1)];
        [done|]. congruence. }
  split; [done|]. split; [|split; [done|split]].
  - intros taskId Ht. by rewrite Hrows, Ht.
  - intros taskId t k h Ht Hh. rewrite acquireOf_eq.
    rewrite (acquire_free k w taskId h t) by done. simpl.
    by rewrite lookup_insert_eq.
  - intros taskId t k h t0 Ht Hh Hby Hat.
    destruct (Hrow taskId t k Ht) as (t' & Ht' & Hstale & Hfresh). split.
    + intros Hc. exists t'. split; [done|].
      destruct Hfresh as (-> & -> & -> & _); [|done].
      intros (_ & a & Ha & Hlt). rewrite Hat in Ha. injection Ha as <-. lia.
    + intros Hc. destruct Hstale as (? & ? & ? & ?).
      { split; [done|]. exists t0. split; [done|]. lia. }
      split; [|done]. by exists t'.
Qed.

Lemma tick_expires_exactly_the_stale_locks_witness :
  (∃ t', tasks (db (schedulerTick
                      (atTime (Scenario.t0 + 29 * 1000) (Scenario.heldByAlice DragLock))).2)
           !! Scenario.t1 = Some t'
         ∧ held DragLock t' = true ∧ holder DragLock t' = Some Scenario.alice
         ∧ acquiredAt DragLock t' = Some Scenario.t0)
  ∧ Free DragLock
      (schedulerTick (atTime (Scenario.t0 + 121 * 1000) (Scenario.heldByAlice DragLock))).2
      Scenario.t1
  ∧ LockExpiredEv DragLock Scenario.t1
      ∈ emitted (schedulerTick
                   (atTime (Scenario.t0 + 121 * 1000) (Scenario.heldByAlice DragLock))).2.
Proof.
  pose (row := setLock DragLock true (Some Scenario.alice) (Some Scenario.t0)
                 (Scenario.card "one" 1)).
  pose proof (tick_expires_exactly_the_stale_locks
                (atTime (Scenario.t0 + 29 * 1000) (Scenario.heldByAlice DragLock)))
    as (_ & _ & _ & _ & Hearly).
  pose proof (tick_expires_exactly_the_stale_locks
                (atTime (Scenario.t0 + 121 * 1000) (Scenario.heldByAlice DragLock)))
    as (_ & _ & _ & _ & Hlate).
  destruct (Hearly Scenario.t1 row DragLock Scenario.alice Scenario.t0) as [He _];
    [vm_compute; reflexivity|reflexivity|reflexivity|reflexivity|].
  destruct (Hlate Scenario.t1 row DragLock Scenario.alice Scenario.t0) as [_ Hl];
    [vm_compute; reflexivity|reflexivity|reflexivity|reflexivity|].
  split; [apply He; reflexivity|]. apply Hl. reflexivity.
Defined.

End SchedulerSpec.

(* ===================================================================== *)
(** * The reorder coordinator and the delete route *)
(* ===================================================================== *)

Module RoutesSpec.
Import Backend Notions LockManagerSpec.
Local Open Scope srv_scope.

Lemma bind_Ok {A B} (m : M A) (f : A → M B) w a w' :
  m w = (Ok a, w') → bind m f w = f a w'.
Proof. intros H. unfold bind. by rewrite H. Qed.

Lemma tryCatch_Ok {A} (m : M A) h w a w' :
  m w = (Ok a, w') → tryCatch m h w = (Ok a, w').
Proof. intros H. unfold tryCatch. by rewrite H. Qed.

(** A batch of updates over distinct existing rows: the row at index [i]
    gets [g i], the others stay. *)
Lemma sequence_update_rows (g : nat → TaskRow → TaskRow) ids w :
  NoDup ids →
  (∀ id, id ∈ ids → is_Some (tasks (db w) !! id)) →
  ∃ rs m', sequence (imap (λ i id, update id (g i)) ids) w
             = (Ok rs, withDb (withTasks (λ _, m')) w)
    ∧ (∀ i id, ids !! i = Some id → m' !! id = g i <$> tasks (db w) !! id)
    ∧ (∀ id, id ∉ ids → m' !! id = tasks (db w) !! id).
Proof.
  revert g w. induction ids as [|x l IH]; intros g w Hnd Hex.
  - exists [], (tasks (db w)). split; [|done].
    simpl. unfold ret. by destruct w as [[???] ????].
  - apply NoDup_cons in Hnd as [Hx Hnd].
    destruct (Hex x) as [t Ht]; [by left|].
    set (w1 := withDb (withTasks (insert x (g 0%nat t))) w).
    destruct (IH (g ∘ S) w1 Hnd) as (rs & m' & Hrun & Hin & Hout).
    { intros id Hid. simpl. rewrite lookup_insert_ne; [apply Hex; by right|].
      by intros <-. }
    exists (g 0%nat t :: rs), m'. split; [|split].
    + rewrite imap_cons. simpl.
      erewrite bind_Ok; [|unfold update; by rewrite Ht].
      fold w1. erewrite bind_Ok; [|exact Hrun].
      unfold ret. by destruct w as [[???] ????].
    + intros [|i] id Hi; simpl in Hi.
      * injection Hi as <-. rewrite Hout by done. simpl.
        by rewrite lookup_insert_eq, Ht.
      * rewrite (Hin i id Hi). simpl. rewrite lookup_insert_ne; [done|].
        intros <-. apply Hx. by eapply list_elem_of_lookup_2.
    + intros id Hid. apply not_elem_of_cons in Hid as [Hne Hid].
      rewrite Hout by done. simpl. by rewrite lookup_insert_ne.
Qed.

(** One phase of the reorder: one committed batch. *)
Lemma renumber_rows base ids w :
  NoDup ids →
  (∀ id, id ∈ ids → is_Some (tasks (db w) !! id)) →
  ∃ rs w', renumber base ids w = (Ok rs, w')
    ∧ emitted w' = emitted w ∧ users (db w') = users (db w)
    ∧ batchCommits (db w') = batchCommits (db w) ++ [tasks (db w')]
    ∧ (∀ i id, ids !! i = Some id →
         tasks (db w') !! id
           = setOrderId (base + Z.of_nat i + 1) <$> tasks (db w) !! id)
    ∧ (∀ id, id ∉ ids → tasks (db w') !! id = tasks (db w) !! id).
Proof.
  intros Hnd Hex.
  destruct (sequence_update_rows (λ i, setOrderId (base + Z.of_nat i + 1)) ids w Hnd Hex)
    as (rs & m' & Hrun & Hin & Hout).
  exists rs, (withDb commitBatch (withDb (withTasks (λ _, m')) w)). split; [|done].
  unfold renumber, transactionBatch, transaction. by rewrite Hrun.
Qed.

Lemma findMany_run p w :
  findMany p w
    = (Ok (filter (λ kt, p kt.1 kt.2 = true) (map_to_list (tasks (db w)))), w).
Proof. done. Qed.

(** C2. A reorder request that passes validation, whose caller holds the
    position lock of the dragged task and whose [orderedIds] are [N] distinct
    existing tasks.  The handler answers 200 and, on its way, commits exactly
    two batches: the first leaves the task table with the index
    [100000 + p] in the row of the id at (1-based) position [p] and every
    other column and row as it was, the second leaves it with the index [p]
    there.  Then it releases the lock and broadcasts the release and the new
    indices.  Afterwards the [i]-th id has index [i], the indices of the ids
    read in order are [1, ..., N], the response lists exactly these pairs,
    and rows outside [orderedIds] keep their index. *)
Theorem reorder_two_phases_dense
    (isUuid : string → bool) (w : World) (req : ReorderRequest) (t : TaskRow) :
  isUuid (reqTaskId req) && isUuid (reqUserId req)
    && forallb isUuid (orderedIds req) = true →
  tasks (db w) !! reqTaskId req = Some t →
  isLocked t = true →
  lockAcquiredBy t = Some (reqUserId req) →
  NoDup (orderedIds req) →
  (∀ id, id ∈ orderedIds req → is_Some (tasks (db w) !! id)) →
  ∃ spread compact dragged l w',
    patchReorder isUuid req w = (Ok (okJson (ReorderedBody l)), w')
    ∧ batchCommits (db w') = batchCommits (db w) ++ [spread; compact]
    ∧ (∀ i id, orderedIds req !! i = Some id →
         spread !! id
           = setOrderId (100000 + (Z.of_nat i + 1)) <$> tasks (db w) !! id)
    ∧ (∀ id, id ∉ orderedIds req → spread !! id = tasks (db w) !! id)
    ∧ (∀ i id, orderedIds req !! i = Some id →
         compact !! id = setOrderId (Z.of_nat i + 1) <$> tasks (db w) !! id)
    ∧ (∀ id, id ∉ orderedIds req → compact !! id = tasks (db w) !! id)
    ∧ compact !! reqTaskId req = Some dragged
    ∧ tasks (db w')
        = <[reqTaskId req := setLock DragLock false None None dragged]> compact
    ∧ users (db w') = users (db w)
    ∧ emitted w'
        = emitted w ++ [LockReleasedEv DragLock (reqTaskId req); TaskReorderedEv l]
    ∧ (∀ i id, orderedIds req !! i = Some id →
         orderId <$> tasks (db w') !! id = Some (Z.of_nat i + 1))
    ∧ (λ id, orderId <$> tasks (db w') !! id) <$> orderedIds req
        = (λ p, Some (Z.of_nat p)) <$> seq 1 (length (orderedIds req))
    ∧ (∀ id o, (id, o) ∈ l ↔ ∃ i, orderedIds req !! i = Some id ∧ o = Z.of_nat i + 1)
    ∧ (∀ id, id ∉ orderedIds req →
         orderId <$> tasks (db w') !! id = orderId <$> tasks (db w) !! id).
Proof.
  destruct req as [taskId userId ids]. simpl.
  intros Hvalid Ht Hl Hby Hnd Hex.
  destruct (renumber_rows OFFSET ids w Hnd Hex)
    as (rs1 & w1 & Hrun1 & Hem1 & Hus1 & Hlog1 & Hin1 & Hout1).
  assert (Hex1 : ∀ id, id ∈ ids → is_Some (tasks (db w1) !! id)).
  { intros id Hid. destruct (list_elem_of_lookup_1 _ _ Hid) as [i Hi].
    rewrite (Hin1 i id Hi). destruct (Hex id Hid) as [t' ->]. by eexists. }
  destruct (renumber_rows 0 ids w1 Hnd Hex1)
    as (rs2 & w2 & Hrun2 & Hem2 & Hus2 & Hlog2 & Hin2 & Hout2).
  assert (Hrow2 : ∀ i id, ids !! i = Some id →
            tasks (db w2) !! id = setOrderId (Z.of_nat i + 1) <$> tasks (db w) !! id).
  { intros i id Hi. rewrite (Hin2 i id Hi), (Hin1 i id Hi).
    by destruct (tasks (db w) !! id). }
  assert (Hdragged : ∃ t2, tasks (db w2) !! taskId = Some t2
            ∧ isLocked t2 = true ∧ lockAcquiredBy t2 = Some userId).
  { destruct (decide (taskId ∈ ids)) as [Hid|Hid].
    - destruct (list_elem_of_lookup_1 _ _ Hid) as [i Hi].
      rewrite (Hrow2 i taskId Hi), Ht. by eexists.
    - rewrite (Hout2 taskId Hid), (Hout1 taskId Hid), Ht. by eexists. }
  destruct Hdragged as (t2 & Ht2 & Hl2 & Hby2).
  set (w3 := freed DragLock taskId t2 (LockReleasedEv DragLock taskId) w2).
  assert (Hrel : releaseLock taskId userId w2 = (Ok true, w3)).
  { by apply (release_by_holder DragLock). }
  assert (Hidx3 : ∀ i id, ids !! i = Some id →
            orderId <$> tasks (db w3) !! id = Some (Z.of_nat i + 1)).
  { intros i id Hi. simpl. destruct (decide (id = taskId)) as [->|Hne].
    - rewrite lookup_insert_eq. simpl.
      specialize (Hrow2 i taskId Hi). rewrite Ht2, Ht in Hrow2.
      by injection Hrow2 as ->.
    - rewrite lookup_insert_ne by done. rewrite (Hrow2 i id Hi).
      destruct (Hex id) as [t' ->]; [by eapply list_elem_of_lookup_2|done]. }
  assert (Hout3 : ∀ id, id ∉ ids →
            orderId <$> tasks (db w3) !! id = orderId <$> tasks (db w) !! id).
  { intros id Hid. simpl. destruct (decide (id = taskId)) as [->|Hne].
    - rewrite lookup_insert_eq. simpl.
      rewrite (Hout2 taskId Hid), (Hout1 taskId Hid), Ht in Ht2.
      injection Ht2 as <-. by rewrite Ht.
    - rewrite lookup_insert_ne by done. by rewrite (Hout2 id Hid), (Hout1 id Hid). }
  assert (Htab3 : tasks (db w3)
            = <[taskId := setLock DragLock false None None t2]> (tasks (db w2))) by done.
  assert (Hus3 : users (db w3) = users (db w)) by (simpl; by rewrite Hus2, Hus1).
  assert (Hlog3 : batchCommits (db w3)
            = batchCommits (db w) ++ [tasks (db w1); tasks (db w2)]).
  { simpl. rewrite Hlog2, Hlog1. by rewrite <- app_assoc. }
  assert (Hem3 : emitted w3 = emitted w ++ [LockReleasedEv DragLock taskId]).
  { simpl. by rewrite Hem2, Hem1. }
  clearbody w3.
  set (l := map (λ kt : string * TaskRow, (kt.1, orderId kt.2))
                (filter (λ kt : string * TaskRow, bool_decide (kt.1 ∈ ids) = true)
                        (map_to_list (tasks (db w3))))).
  exists (tasks (db w1)), (tasks (db w2)), t2, l,
         (mkWorld (db w3) (emitted w3 ++ [TaskReorderedEv l])
                  (clock w3) (freshIds w3) (orderSeq w3)).
  split.
  { unfold patchReorder. simpl. rewrite Hvalid. simpl.
    apply tryCatch_Ok.
    erewrite bind_Ok; [|unfold findUnique; by rewrite Ht]. cbv beta iota.
    rewrite Hl, Hby, bool_decide_eq_true_2 by done. cbv beta iota delta [negb orb].
    erewrite bind_Ok; [|exact Hrun1].
    erewrite bind_Ok; [|exact Hrun2].
    erewrite bind_Ok; [|exact Hrel].
    erewrite bind_Ok; [|apply findMany_run].
    fold l. unfold bind, emit, ret, okJson. done. }
  simpl.
  split; [exact Hlog3|]. split.
  { intros i id Hi. rewrite (Hin1 i id Hi). unfold OFFSET.
    destruct (tasks (db w) !! id) as [t'|]; [|done]. simpl. do 2 f_equal. lia. }
  split; [exact Hout1|]. split; [exact Hrow2|]. split.
  { intros id Hid. by rewrite (Hout2 id Hid), (Hout1 id Hid). }
  split; [exact Ht2|]. split; [exact Htab3|]. split; [exact Hus3|]. split.
  { rewrite Hem3. by rewrite <- app_assoc. }
  split; [exact Hidx3|]. split.
  { apply list_eq. intros i. rewrite !list_lookup_fmap.
    destruct (ids !! i) as [id|] eqn:Hi; simpl.
    - rewrite (Hidx3 i id Hi). apply lookup_lt_Some in Hi as Hlt.
      rewrite lookup_seq_lt by done. simpl. do 2 f_equal. lia.
    - apply lookup_ge_None in Hi. by rewrite lookup_seq_ge. }
  split.
  { intros id o. unfold l. rewrite list_elem_of_In, in_map_iff. split.
    - intros ([id' t'] & [= -> <-] & Hin). simpl.
      apply list_elem_of_In, list_elem_of_filter in Hin as [Hp Hin]. simpl in Hp.
      apply bool_decide_eq_true in Hp. apply elem_of_map_to_list in Hin.
      destruct (list_elem_of_lookup_1 _ _ Hp) as [i Hi]. exists i. split; [done|].
      specialize (Hidx3 i id Hi). rewrite Hin in Hidx3. by injection Hidx3.
    - intros (i & Hi & ->). specialize (Hidx3 i id Hi).
      destruct (tasks (db w3) !! id) as [t'|] eqn:Ht'; [|done].
      injection Hidx3 as Ho. exists (id, t'). split; [simpl; congruence|].
      apply list_elem_of_In, list_elem_of_filter. simpl. split.
      + apply bool_decide_eq_true. by eapply list_elem_of_lookup_2.
      + by apply elem_of_map_to_list. }
  exact Hout3.
Qed.

Lemma reorder_two_phases_dense_witness :
  ∃ spread compact l w',
    patchReorder Scenario.uuidShape Scenario.fiveToTop Scenario.draggingFive
      = (Ok (okJson (ReorderedBody l)), w')
    ∧ batchCommits (db w') = [spread; compact]
    ∧ (λ id, orderId <$> spread !! id)
        <$> [Scenario.t5; Scenario.t1; Scenario.t2; Scenario.t3; Scenario.t4]
      = [Some 100001; Some 100002; Some 100003; Some 100004; Some 100005]
    ∧ (λ id, orderId <$> tasks (db w') !! id)
        <$> [Scenario.t5; Scenario.t1; Scenario.t2; Scenario.t3; Scenario.t4]
      = [Some 1; Some 2; Some 3; Some 4; Some 5].
Proof.
  destruct (reorder_two_phases_dense Scenario.uuidShape Scenario.draggingFive
              Scenario.fiveToTop
              (setLock DragLock true (Some Scenario.alice) (Some Scenario.t0)
                       (Scenario.card "five" 5)))
    as (spread & compact & dragged & l & w' & Hrun & Hlog & Hspread & _ & _ & _ & _ & _
        & _ & _ & _ & Hseq & _).
  - vm_compute. reflexivity.
  - vm_compute. reflexivity.
  - reflexivity.
  - reflexivity.
  - apply (bool_decide_unpack _). vm_compute. reflexivity.
  - apply Forall_forall. apply (bool_decide_unpack _). vm_compute. reflexivity.
  - exists spread, compact, l, w'. split; [exact Hrun|]. split; [exact Hlog|].
    split; [|exact Hseq].
    simpl. rewrite (Hspread 0%nat Scenario.t5), (Hspread 1%nat Scenario.t1),
      (Hspread 2%nat Scenario.t2), (Hspread 3%nat Scenario.t3),
      (Hspread 4%nat Scenario.t4) by reflexivity.
    vm_compute. reflexivity.
Defined.

(** C10. Deleting an existing task removes its row, whatever the state of
    its two locks and whoever holds them, leaves every other row alone,
    broadcasts the deletion and answers with success; the request names no
    requester and the handler reads no lock column.  No lock of the task is
    held afterwards. *)
Theorem delete_ignores_locks (w : World) (deleteId : string) (t : TaskRow) :
  tasks (db w) !! deleteId = Some t →
  ∃ w', deleteTask deleteId w = (Ok (okJson (SuccessBody true)), w')
    ∧ tasks (db w') = delete deleteId (tasks (db w))
    ∧ tasks (db w') !! deleteId = None
    ∧ (∀ k, ¬ Held k w' deleteId)
    ∧ (∀ other, other ≠ deleteId → tasks (db w') !! other = tasks (db w) !! other)
    ∧ emitted w' = emitted w ++ [TaskDeletedEv deleteId].
Proof.
  intros Ht. eexists. split.
  { unfold deleteTask. apply tryCatch_Ok.
    erewrite bind_Ok; [|unfold deleteRow; by rewrite Ht].
    unfold bind, emit, ret. simpl. reflexivity. }
  simpl. split; [done|]. split; [apply lookup_delete_eq|].
  split; [|split; [|done]].
  - intros k (t' & Ht' & _). simpl in Ht'. by rewrite lookup_delete_eq in Ht'.
  - intros other Hne. by apply lookup_delete_ne.
Qed.

Lemma delete_ignores_locks_witness :
  ∃ w', deleteTask Scenario.t1 (Scenario.heldByAlice EditLock)
          = (Ok (okJson (SuccessBody true)), w')
    ∧ tasks (db w') !! Scenario.t1 = None
    ∧ emitted w' = [TaskDeletedEv Scenario.t1].
Proof.
  destruct (delete_ignores_locks (Scenario.heldByAlice EditLock) Scenario.t1
              (setLock EditLock true (Some Scenario.alice) (Some Scenario.t0)
                       (Scenario.card "one" 1)))
    as (w' & Hrun & _ & Hgone & _ & _ & Hev).
  - vm_compute. reflexivity.
  - exists w'. split; [exact Hrun|]. split; [exact Hgone|]. exact Hev.
Defined.

End RoutesSpec.

(* ===================================================================== *)
(** * The offline queue *)
(* ===================================================================== *)

Module QueueSpec.
Import Backend Frontend ReplayNotions.

Section Sorting.
Context {A : Type} (key : A → Z).

Lemma insertBy_Permutation x l : insertBy key x l ≡ₚ x :: l.
Proof.
  induction l as [|y l IH]; [done|]. simpl. case_bool_decide; [done|].
  rewrite IH. apply Permutation_swap.
Qed.

Lemma sortBy_Permutation l : sortBy key l ≡ₚ l.
Proof.
  induction l as [|x l IH]; [done|].
  unfold sortBy in *. simpl. by rewrite insertBy_Permutation, IH.
Qed.

Lemma insertBy_sorted x l :
  StronglySorted (λ a b, key a ≤ key b) l →
  StronglySorted (λ a b, key a ≤ key b) (insertBy key x l).
Proof.
  induction l as [|y l IH]; intros Hs; simpl.
  - repeat constructor.
  - apply StronglySorted_inv in Hs as [Hl Hy]. case_bool_decide as Hxy.
    + constructor; [by constructor|]. constructor; [done|].
      eapply Forall_impl; [exact Hy|]. simpl. intros; lia.
    + constructor; [by apply IH|].
      rewrite insertBy_Permutation. constructor; [lia|done].
Qed.

Lemma sortBy_sorted l : StronglySorted (λ a b, key a ≤ key b) (sortBy key l).
Proof.
  induction l as [|x l IH]; [constructor|].
  unfold sortBy in *. simpl. by apply insertBy_sorted.
Qed.

End Sorting.

Lemma getAllEvents_Permutation st : getAllEvents st ≡ₚ stored st.
Proof. unfold getAllEvents, getAll. by rewrite !sortBy_Permutation. Qed.

Lemma elem_of_stored st ev :
  ev ∈ stored st ↔ records st !! id ev = Some (enqueuedAt ev, event ev).
Proof.
  unfold stored. rewrite list_elem_of_fmap. split.
  - intros ([k [a e]] & -> & Hin). simpl. by apply elem_of_map_to_list.
  - intros Hin. exists (id ev, (enqueuedAt ev, event ev)). split; [by destruct ev|].
    by apply elem_of_map_to_list.
Qed.

Lemma NoDup_stored_ids st : NoDup (id <$> stored st).
Proof.
  unfold stored. rewrite <- list_fmap_compose.
  apply (NoDup_fst_map_to_list (records st)).
Qed.

Lemma length_stored st : length (stored st) = countEvents st.
Proof. unfold stored, countEvents. by rewrite length_fmap, length_map_to_list. Qed.

End QueueSpec.

(* ===================================================================== *)
(** * The replay engine *)
(* ===================================================================== *)

Module ReplaySpec.
Import Backend Frontend ReplayNotions QueueSpec.

Section Replay.
Context {S : Type} `{!Server S}.

(** ** The socket handlers leave the hook alone *)

Lemma deliver_frame (e : SocketEvent) (c : Client S) :
  SameTab c (deliver e c) ∧ server (deliver e c) = server c
  ∧ ∃ noise, effects (deliver e c) = effects c ++ noise ∧ Noise noise.
Proof.
  destruct e as [[] j u|[] j|[] j|t|t|l|j]; (split; [done|]); (split; [done|]).
  all: try (exists []; split; [by rewrite app_nil_r|constructor]).
  - eexists [_]. split; [reflexivity|]. constructor; [|constructor].
    apply elem_of_cons. by left.
  - eexists [_]. split; [reflexivity|]. constructor; [|constructor].
    apply elem_of_cons. right. apply elem_of_cons. by left.
Qed.

Lemma deliverAll_frame (evs : list SocketEvent) (c : Client S) :
  SameTab c (deliverAll evs c) ∧ server (deliverAll evs c) = server c
  ∧ ∃ noise, effects (deliverAll evs c) = effects c ++ noise ∧ Noise noise.
Proof.
  revert c. induction evs as [|e evs IH]; intros c.
  - split; [done|]. split; [done|]. exists []. split; [by rewrite app_nil_r|constructor].
  - destruct (deliver_frame e c) as ((Hq & Hfl & Hsy & Hql & Hon & Hnw) & Hs & n1 & He1 & Hn1).
    destruct (IH (deliver e c)) as ((Hq' & Hfl' & Hsy' & Hql' & Hon' & Hnw') & Hs' & n2 & He2 & Hn2).
    simpl. split; [|split].
    + unfold SameTab. by rewrite Hq', Hfl', Hsy', Hql', Hon', Hnw'.
    + by rewrite Hs'.
    + exists (n1 ++ n2). split; [by rewrite He2, He1, app_assoc|by apply Forall_app].
Qed.

Lemma own_app es1 es2 : own (es1 ++ es2) = own es1 ++ own es2.
Proof. apply filter_app. Qed.

Lemma own_noise es : Noise es → own es = [].
Proof.
  induction 1 as [|e es He _ IH]; [done|].
  unfold own. rewrite filter_cons_False; [done|]. by intros Hn.
Qed.

Lemma own_Sent r es : own (Sent r :: es) = Sent r :: own es.
Proof.
  unfold own. rewrite filter_cons_True; [done|].
  unfold socketToasts. rewrite !not_elem_of_cons. by repeat split; try apply not_elem_of_nil.
Qed.

Lemma own_Removed i es : own (Removed i :: es) = Removed i :: own es.
Proof.
  unfold own. rewrite filter_cons_True; [done|].
  unfold socketToasts. rewrite !not_elem_of_cons. by repeat split; try apply not_elem_of_nil.
Qed.

Lemma own_Toasted m ty es :
  ty ≠ info → own (Toasted m ty :: es) = Toasted m ty :: own es.
Proof.
  intros Hty. unfold own. rewrite filter_cons_True; [done|].
  unfold socketToasts. rewrite !not_elem_of_cons.
  repeat split; try apply not_elem_of_nil; intros [= ? ?]; done.
Qed.

Lemma own_syncing n es :
  own (Toasted (syncingMessage n) info :: es) = Toasted (syncingMessage n) info :: own es.
Proof.
  unfold own. rewrite filter_cons_True; [done|].
  unfold socketToasts. rewrite !not_elem_of_cons.
  repeat split; try apply not_elem_of_nil; intros [= Hm]; discriminate Hm.
Qed.

Lemma bind_Fulfilled {A B} (m : P S A) (f : A → P S B) c a c' :
  m c = (Fulfilled a, c') → bind m f c = f a c'.
Proof. intros H. unfold bind. by rewrite H. Qed.

Lemma bind_Rejected {A B} (m : P S A) (f : A → P S B) c c' :
  m c = (Rejected, c') → bind m f c = (Rejected, c').
Proof. intros H. unfold bind. by rewrite H. Qed.

(** One request: what it leaves alone, what it adds to the effects, and the
    answer it hands on. *)
Lemma request_run {A E} (r : Request) (serve : S → Reply A E * S) (c : Client S) :
  ∃ c1 noise,
    request r serve c = (Fulfilled (serve (server c)).1, c1)
    ∧ server c1 = (serve (server c)).2
    ∧ SameTab c c1
    ∧ effects c1 = effects c ++ Sent r :: noise ∧ Noise noise.
Proof.
  unfold request. simpl. destruct (serve (server c)) as [reply s]. simpl.
  set (c0 := setServer s (perform (Sent r) c)).
  destruct (deliverAll_frame (broadcastsSince (server c) s) c0)
    as (Hsame & Hs & noise & He & Hn).
  eexists _, noise. split; [reflexivity|]. split; [by rewrite Hs|].
  split; [exact Hsame|]. split; [|done].
  rewrite He. simpl. by rewrite <- app_assoc.
Qed.

Lemma SameTab_trans (c1 c2 c3 : Client S) : SameTab c1 c2 → SameTab c2 c3 → SameTab c1 c3.
Proof.
  intros (?&?&?&?&?&?) (?&?&?&?&?&?). unfold SameTab. repeat split; congruence.
Qed.

Ltac own_effects :=
  repeat first
    [ rewrite own_Sent | rewrite own_Removed | rewrite own_Toasted by done
    | rewrite own_syncing | rewrite own_app | rewrite own_noise by done ];
  rewrite ?app_nil_r; simpl.

Ltac same_tab :=
  repeat match goal with H : SameTab _ _ |- _ => destruct H as (?&?&?&?&?&?) end;
  unfold SameTab; simpl in *; repeat split; congruence.

(** The three ways an acquire ends for [replayOne]: no answer (reading
    [success] of [undefined] throws), an answer without [success: true] (the
    conflict toast), or the grant. *)
Lemma acquire_run {B} (k : LockKind) (tid uid : string) (f : bool → P S B)
    (c : Client S) :
  ∃ c1 noise,
    server c1 = (serveAcquire k tid uid (server c)).2
    ∧ SameTab c c1
    ∧ effects c1 = effects c ++ Sent (AcquireReq k tid uid) :: noise ∧ Noise noise
    ∧ bind (acquire k tid uid) (λ lockRes, bind (readSuccess lockRes) f) c
      = match (serveAcquire k tid uid (server c)).1 with
        | NoReply => (Rejected, c1)
        | r => f (granted r) c1
        end.
Proof.
  destruct (request_run (AcquireReq k tid uid) (serveAcquire k tid uid) c)
    as (c1 & n1 & Hr1 & Hs1 & Hsame1 & He1 & Hn1).
  exists c1, n1. split; [done|]. split; [done|]. split; [done|]. split; [done|].
  cbv [bind acquire]. rewrite Hr1.
  by destruct (serveAcquire k tid uid (server c)).1.
Qed.

(** [release(...).catch(() => {})] *)
Lemma release_run (k : LockKind) (tid uid : string) (c : Client S) :
  ∃ c1 noise,
    bestEffort (release k tid uid) c = (Fulfilled (), c1)
    ∧ server c1 = (serveRelease k tid uid (server c)).2
    ∧ SameTab c c1
    ∧ effects c1 = effects c ++ Sent (ReleaseReq k tid uid) :: noise ∧ Noise noise.
Proof.
  destruct (request_run (ReleaseReq k tid uid) (serveRelease k tid uid) c)
    as (c1 & n1 & Hr1 & Hs1 & Hsame1 & He1 & Hn1).
  exists c1, n1. split; [|done].
  cbv [bestEffort tryCatch bind release thenData]. rewrite Hr1.
  by destruct (serveRelease k tid uid (server c)).1.
Qed.

(** [replayOne] always fulfils; it touches neither the queue nor the flags
    of the hook; what it does to the outside is an attempt at its entry; and
    it reports a success exactly when the server completed the entry. *)
Lemma replayOne_run (ev : StoredQueuedEvent) (c : Client S) :
  ∃ b c' es,
    replayOne ev c = (Fulfilled b, c')
    ∧ SameTab c c'
    ∧ effects c' = effects c ++ es
    ∧ Attempt (event ev) b (own es)
    ∧ (b = true → Completes (event ev) (server c) (server c'))
    ∧ (b = false → ∀ s', ¬ Completes (event ev) (server c) s').
Proof.
  destruct ev as [i at_ e]. simpl.
  destruct e as [ti de tmp|tid ti de uid|tid st uid|tid uid ids|tid].
  - (* CREATE_TASK *)
    destruct (request_run (CreateTaskReq ti de) (serveCreate ti de) c)
      as (c1 & n1 & Hr1 & Hs1 & Hsame1 & He1 & Hn1).
    destruct (serveCreate ti de (server c)) as [reply s1] eqn:Hsrv. simpl in *.
    cbv [replayOne replayBody tryCatch bind ret reject act createTask thenData event].
    rewrite Hr1. destruct reply as [t| |]; cbv beta iota.
    + exists true, (onTaskCreated (fromServer t) c1), (Sent (CreateTaskReq ti de) :: n1).
      split; [reflexivity|]. split; [exact Hsame1|]. split; [exact He1|].
      split; [own_effects; apply (attempt_done (CREATE_TASK ti de tmp))|].
      split; [intros _; exists t; simpl; by rewrite Hs1|done].
    + exists false, c1, (Sent (CreateTaskReq ti de) :: n1).
      split; [reflexivity|]. split; [exact Hsame1|]. split; [exact He1|].
      split; [own_effects; apply (attempt_failed _ [CreateTaskReq ti de]); by left|].
      split; [done|]. intros _ s' (t & Ht). congruence.
    + exists false, c1, (Sent (CreateTaskReq ti de) :: n1).
      split; [reflexivity|]. split; [exact Hsame1|]. split; [exact He1|].
      split; [own_effects; apply (attempt_failed _ [CreateTaskReq ti de]); by left|].
      split; [done|]. intros _ s' (t & Ht). congruence.
  - (* UPDATE_TITLE *)
    unfold replayOne, replayBody, event, acquireEditLock, tryCatch.
    match goal with |- context [bind _ (λ lockRes, bind (readSuccess lockRes) ?f) c] =>
      destruct (acquire_run EditLock tid uid f c)
        as (c1 & n1 & Hs1 & Hsame1 & He1 & Hn1 & Hacq)
    end.
    rewrite Hacq. clear Hacq.
    destruct (serveAcquire EditLock tid uid (server c)) as [r s1] eqn:Hsrv1.
    cbn [fst snd] in *.
    assert (Hdenied : granted r = false → ∀ s', ¬ Completes (UPDATE_TITLE tid ti de uid) (server c) s').
    { intros Hg s' (r0 & s0 & t & s2 & r' & Ha & Hg' & _). congruence. }
    destruct r as [d|d|]; [destruct (granted (Replied d)) eqn:Hg|
                           destruct (granted (Failed d)) eqn:Hg|].
    5:{ (* no answer *)
        exists false, c1, (Sent (AcquireReq EditLock tid uid) :: n1).
        split; [reflexivity|]. split; [done|]. split; [done|].
        split; [own_effects; apply (attempt_failed _ [AcquireReq EditLock tid uid]); by left|].
        split; [done|]. intros _. by apply Hdenied. }
    2,4: (* not granted *)
      exists false, (showToast titleConflict error c1),
             (Sent (AcquireReq EditLock tid uid) :: n1 ++ [Toasted titleConflict error]);
      (split; [reflexivity|]); (split; [done|]);
      (split; [simpl; rewrite He1, <- app_assoc; reflexivity|]);
      (split; [own_effects; by eapply (attempt_conflict (UPDATE_TITLE tid ti de uid))|]);
      (split; [done|]); intros _; by apply Hdenied.
    all: (* granted *)
      cbv beta iota delta [negb];
      destruct (request_run (UpdateTitleReq tid ti de uid) (serveTitle tid ti de uid) c1)
        as (c2 & n2 & Hr2 & Hs2 & Hsame2 & He2 & Hn2);
      destruct (serveTitle tid ti de uid (server c1)) as [reply s2] eqn:Hsrv2;
      cbn [fst snd] in *;
      cbv [tryFinally updateTitle thenData bind act ret reject]; rewrite Hr2;
      destruct reply as [t| |]; cbv beta iota;
      match goal with |- context [bestEffort (releaseEditLock _ _) ?cx] =>
        destruct (release_run EditLock tid uid cx)
          as (c3 & n3 & Hr3 & Hs3 & Hsame3 & He3 & Hn3)
      end;
      unfold releaseEditLock; rewrite Hr3; cbv beta iota.
    1,4: (* the server answered the edit with a success *)
      exists true, c3,
        (Sent (AcquireReq EditLock tid uid) :: n1
         ++ Sent (UpdateTitleReq tid ti de uid) :: n2
         ++ Sent (ReleaseReq EditLock tid uid) :: n3);
      (split; [reflexivity|]); (split; [same_tab|]);
      (split; [rewrite He3; simpl; rewrite He2, He1, <- !app_assoc; reflexivity|]);
      (split; [own_effects; apply (attempt_done (UPDATE_TITLE tid ti de uid))|]);
      (split; [|done]); intros _;
      eexists _, _, _, _, _; (split; [exact Hsrv1|]); (split; [exact Hg|]);
      rewrite Hs1 in Hsrv2; (split; [exact Hsrv2|]);
      rewrite Hs3; simpl; rewrite Hs2; apply surjective_pairing.
    all: (* the edit failed: the lock was released, the entry fails *)
      exists false, c3,
        (Sent (AcquireReq EditLock tid uid) :: n1
         ++ Sent (UpdateTitleReq tid ti de uid) :: n2
         ++ Sent (ReleaseReq EditLock tid uid) :: n3);
      (split; [reflexivity|]); (split; [same_tab|]);
      (split; [rewrite He3, He2, He1, <- !app_assoc; reflexivity|]);
      (split; [own_effects;
               apply (attempt_failed (UPDATE_TITLE tid ti de uid)
                        [AcquireReq EditLock tid uid; UpdateTitleReq tid ti de uid;
                         ReleaseReq EditLock tid uid]); by right|]);
      (split; [done|]); intros _ s' (r0 & s0 & t & s2' & r' & Ha & _ & Ht & _);
      rewrite Hsrv1 in Ha; injection Ha as <- <-;
      rewrite Hs1 in Hsrv2; rewrite Hsrv2 in Ht; discriminate Ht.
  - (* UPDATE_STATUS *)
    unfold replayOne, replayBody, event, acquireLock.
    unfold tryCatch at 1.
    match goal with |- context [bind _ (λ lockRes, bind (readSuccess lockRes) ?f) c] =>
      destruct (acquire_run DragLock tid uid f c)
        as (c1 & n1 & Hs1 & Hsame1 & He1 & Hn1 & Hacq)
    end.
    rewrite Hacq. clear Hacq.
    destruct (serveAcquire DragLock tid uid (server c)) as [r s1] eqn:Hsrv1.
    cbn [fst snd] in *.
    assert (Hdenied : granted r = false → ∀ s', ¬ Completes (UPDATE_STATUS tid st uid) (server c) s').
    { intros Hg s' (r0 & s0 & t & Ha & Hg' & _). congruence. }
    destruct r as [d|d|]; [destruct (granted (Replied d)) eqn:Hg|
                           destruct (granted (Failed d)) eqn:Hg|].
    5:{ (* no answer *)
        exists false, c1, (Sent (AcquireReq DragLock tid uid) :: n1).
        split; [reflexivity|]. split; [done|]. split; [done|].
        split; [own_effects; apply (attempt_failed _ [AcquireReq DragLock tid uid]); by left|].
        split; [done|]. intros _. by apply Hdenied. }
    2,4: (* not granted *)
      exists false, (showToast statusConflict error c1),
             (Sent (AcquireReq DragLock tid uid) :: n1 ++ [Toasted statusConflict error]);
      (split; [reflexivity|]); (split; [done|]);
      (split; [simpl; rewrite He1, <- app_assoc; reflexivity|]);
      (split; [own_effects; by eapply (attempt_conflict (UPDATE_STATUS tid st uid))|]);
      (split; [done|]); intros _; by apply Hdenied.
    all: (* granted *)
      cbv beta iota delta [negb];
      destruct (request_run (UpdateStatusReq tid st uid) (serveStatus tid st uid) c1)
        as (c2 & n2 & Hr2 & Hs2 & Hsame2 & He2 & Hn2);
      destruct (serveStatus tid st uid (server c1)) as [reply s2] eqn:Hsrv2;
      cbn [fst snd] in *;
      cbv [tryCatch updateStatus thenData bind act ret reject]; rewrite Hr2;
      destruct reply as [t| |]; cbv beta iota;
      try (match goal with |- context [bestEffort (releaseLock _ _) ?cx] =>
             destruct (release_run DragLock tid uid cx)
               as (c3 & n3 & Hr3 & Hs3 & Hsame3 & He3 & Hn3)
           end;
           unfold releaseLock; rewrite Hr3; cbv beta iota).
    1,4: (* the server answered the mutation with a success *)
      eexists true, _,
        (Sent (AcquireReq DragLock tid uid) :: n1 ++ Sent (UpdateStatusReq tid st uid) :: n2);
      (split; [reflexivity|]); (split; [same_tab|]);
      (split; [simpl; rewrite He2, He1, <- !app_assoc; reflexivity|]);
      (split; [own_effects; apply (attempt_done (UPDATE_STATUS tid st uid))|]);
      (split; [|done]); intros _;
      eexists _, _, _; (split; [exact Hsrv1|]); (split; [exact Hg|]);
      rewrite Hs1 in Hsrv2; simpl; rewrite Hs2; exact Hsrv2.
    all: (* the mutation failed: the lock was released, the entry fails *)
      exists false, c3,
        (Sent (AcquireReq DragLock tid uid) :: n1
         ++ Sent (UpdateStatusReq tid st uid) :: n2
         ++ Sent (ReleaseReq DragLock tid uid) :: n3);
      (split; [reflexivity|]); (split; [same_tab|]);
      (split; [rewrite He3, He2, He1, <- !app_assoc; reflexivity|]);
      (split; [own_effects;
               apply (attempt_failed (UPDATE_STATUS tid st uid)
                        [AcquireReq DragLock tid uid; UpdateStatusReq tid st uid;
                         ReleaseReq DragLock tid uid]); by right|]);
      (split; [done|]); intros _ s' (r0 & s0 & t & Ha & _ & Ht);
      rewrite Hsrv1 in Ha; injection Ha as <- <-;
      rewrite Hs1 in Hsrv2; rewrite Hsrv2 in Ht; discriminate Ht.
  - (* REORDER_TASKS *)
    unfold replayOne, replayBody, event, acquireLock.
    unfold tryCatch at 1.
    match goal with |- context [bind _ (λ lockRes, bind (readSuccess lockRes) ?f) c] =>
      destruct (acquire_run DragLock tid uid f c)
        as (c1 & n1 & Hs1 & Hsame1 & He1 & Hn1 & Hacq)
    end.
    rewrite Hacq. clear Hacq.
    destruct (serveAcquire DragLock tid uid (server c)) as [r s1] eqn:Hsrv1.
    cbn [fst snd] in *.
    assert (Hdenied : granted r = false → ∀ s', ¬ Completes (REORDER_TASKS tid uid ids) (server c) s').
    { intros Hg s' (r0 & s0 & t & Ha & Hg' & _). congruence. }
    destruct r as [d|d|]; [destruct (granted (Replied d)) eqn:Hg|
                           destruct (granted (Failed d)) eqn:Hg|].
    5:{ (* no answer *)
        exists false, c1, (Sent (AcquireReq DragLock tid uid) :: n1).
        split; [reflexivity|]. split; [done|]. split; [done|].
        split; [own_effects; apply (attempt_failed _ [AcquireReq DragLock tid uid]); by left|].
        split; [done|]. intros _. by apply Hdenied. }
    2,4: (* not granted *)
      exists false, (showToast reorderConflict error c1),
             (Sent (AcquireReq DragLock tid uid) :: n1 ++ [Toasted reorderConflict error]);
      (split; [reflexivity|]); (split; [done|]);
      (split; [simpl; rewrite He1, <- app_assoc; reflexivity|]);
      (split; [own_effects; by eapply (attempt_conflict (REORDER_TASKS tid uid ids))|]);
      (split; [done|]); intros _; by apply Hdenied.
    all: (* granted *)
      cbv beta iota delta [negb];
      destruct (request_run (ReorderTasksReq tid uid ids) (serveReorder tid uid ids) c1)
        as (c2 & n2 & Hr2 & Hs2 & Hsame2 & He2 & Hn2);
      destruct (serveReorder tid uid ids (server c1)) as [reply s2] eqn:Hsrv2;
      cbn [fst snd] in *;
      cbv [tryCatch reorderTasks thenData bind act ret reject]; rewrite Hr2;
      destruct reply as [t| |]; cbv beta iota;
      try (match goal with |- context [bestEffort (releaseLock _ _) ?cx] =>
             destruct (release_run DragLock tid uid cx)
               as (c3 & n3 & Hr3 & Hs3 & Hsame3 & He3 & Hn3)
           end;
           unfold releaseLock; rewrite Hr3; cbv beta iota).
    1,4: (* the server answered the mutation with a success *)
      eexists true, _,
        (Sent (AcquireReq DragLock tid uid) :: n1 ++ Sent (ReorderTasksReq tid uid ids) :: n2);
      (split; [reflexivity|]); (split; [same_tab|]);
      (split; [simpl; rewrite He2, He1, <- !app_assoc; reflexivity|]);
      (split; [own_effects; apply (attempt_done (REORDER_TASKS tid uid ids))|]);
      (split; [|done]); intros _;
      eexists _, _, _; (split; [exact Hsrv1|]); (split; [exact Hg|]);
      rewrite Hs1 in Hsrv2; simpl; rewrite Hs2; exact Hsrv2.
    all: (* the mutation failed: the lock was released, the entry fails *)
      exists false, c3,
        (Sent (AcquireReq DragLock tid uid) :: n1
         ++ Sent (ReorderTasksReq tid uid ids) :: n2
         ++ Sent (ReleaseReq DragLock tid uid) :: n3);
      (split; [reflexivity|]); (split; [same_tab|]);
      (split; [rewrite He3, He2, He1, <- !app_assoc; reflexivity|]);
      (split; [own_effects;
               apply (attempt_failed (REORDER_TASKS tid uid ids)
                        [AcquireReq DragLock tid uid; ReorderTasksReq tid uid ids;
                         ReleaseReq DragLock tid uid]); by right|]);
      (split; [done|]); intros _ s' (r0 & s0 & t & Ha & _ & Ht);
      rewrite Hsrv1 in Ha; injection Ha as <- <-;
      rewrite Hs1 in Hsrv2; rewrite Hsrv2 in Ht; discriminate Ht.
  - (* DELETE_TASK *)
    destruct (request_run (DeleteTaskReq tid) (serveDelete tid) c)
      as (c1 & n1 & Hr1 & Hs1 & Hsame1 & He1 & Hn1).
    destruct (serveDelete tid (server c)) as [reply s1] eqn:Hsrv. simpl in *.
    cbv [replayOne replayBody tryCatch bind ret reject act deleteTask thenData event].
    rewrite Hr1. destruct reply as [u| |]; cbv beta iota.
    + exists true, c1, (Sent (DeleteTaskReq tid) :: n1).
      split; [reflexivity|]. split; [exact Hsame1|]. split; [exact He1|].
      split; [own_effects; apply (attempt_done (DELETE_TASK tid))|].
      split; [intros _; exists u; simpl; by rewrite Hs1|done].
    + exists false, c1, (Sent (DeleteTaskReq tid) :: n1).
      split; [reflexivity|]. split; [exact Hsame1|]. split; [exact He1|].
      split; [own_effects; apply (attempt_failed _ [DeleteTaskReq tid]); by left|].
      split; [done|]. intros _ s' (t & Ht). congruence.
    + exists false, c1, (Sent (DeleteTaskReq tid) :: n1).
      split; [reflexivity|]. split; [exact Hsame1|]. split; [exact He1|].
      split; [own_effects; apply (attempt_failed _ [DeleteTaskReq tid]); by left|].
      split; [done|]. intros _ s' (t & Ht). congruence.
Qed.

Lemma skipped_subseteq evs bs ev : ev ∈ skipped evs bs → ev ∈ evs.
Proof.
  revert bs. induction evs as [|e evs IH]; intros [|[] bs] Hin; simpl in Hin;
    try by apply elem_of_nil in Hin.
  - right. by eapply IH.
  - apply elem_of_cons in Hin as [->|Hin]; [by left|right; by eapply IH].
Qed.

(** The client after the turn of entry [ev], whose replay ended in [c1]
    with outcome [b]. *)
Lemma replayAll_cons (ev : StoredQueuedEvent) rest (c : Client S) b c1 :
  replayOne ev c = (Fulfilled b, c1) →
  replayAll (ev :: rest) c
  = replayAll rest
      (if b then setQueue (removeEvent (id ev)) (perform (Removed (id ev)) c1) else c1).
Proof.
  intros Hone. simpl. erewrite bind_Fulfilled; [|exact Hone].
  destruct b; by erewrite bind_Fulfilled.
Qed.

(** The loop of [flushQueue]: every entry is replayed, in list order; an
    entry that succeeded is removed before the next one starts, one that
    failed stays in the queue. *)
Lemma replayAll_run (evs : list StoredQueuedEvent) (c : Client S) :
  NoDup (id <$> evs) →
  ∃ bs es c',
    replayAll evs c = (Fulfilled (), c')
    ∧ Chunks evs bs (own es)
    ∧ effects c' = effects c ++ es
    ∧ isFlushing c' = isFlushing c ∧ isSyncing c' = isSyncing c
    ∧ (∀ ev, ev ∈ skipped evs bs →
         records (queue c') !! id ev = records (queue c) !! id ev)
    ∧ (∀ ev, ev ∈ evs → ev ∉ skipped evs bs → records (queue c') !! id ev = None)
    ∧ (∀ i, i ∉ id <$> evs → records (queue c') !! i = records (queue c) !! i).
Proof.
  revert c. induction evs as [|ev evs IH]; intros c Hnd.
  - exists [], [], c. split; [done|]. split; [constructor|].
    rewrite app_nil_r. repeat split; try done.
    all: intros ev Hin; by apply elem_of_nil in Hin.
  - rewrite fmap_cons in Hnd. apply NoDup_cons in Hnd as [Hev Hnd].
    destruct (replayOne_run ev c) as (b & c1 & es1 & Hone & Hsame & Heff & Hatt & _).
    destruct Hsame as (Hq & Hfl & Hsy & _).
    set (c2 := if b then setQueue (removeEvent (id ev)) (perform (Removed (id ev)) c1)
               else c1).
    destruct (IH c2 Hnd) as (bs & es & c' & Hrun & Hch & Heff' & Hfl' & Hsy' & Hkeep & Hgone & Hout).
    exists (b :: bs), ((es1 ++ (if b then [Removed (id ev)] else [])) ++ es), c'.
    assert (Hno : ∀ e, e ∈ evs → id e ≠ id ev).
    { intros e He Heq. apply Hev. rewrite <- Heq. by apply list_elem_of_fmap_2. }
    split; [|split; [|split; [|split; [|split; [|split; [|split]]]]]].
    + rewrite (replayAll_cons ev evs c b c1 Hone). exact Hrun.
    + rewrite own_app. constructor; [|done]. rewrite own_app. destruct b.
      * rewrite own_Removed. by constructor.
      * simpl. rewrite app_nil_r. by constructor.
    + rewrite Heff'. unfold c2. destruct b; simpl; rewrite Heff.
      * by rewrite <- !app_assoc.
      * by rewrite app_nil_r, <- !app_assoc.
    + rewrite Hfl'. unfold c2. by destruct b.
    + rewrite Hsy'. unfold c2. by destruct b.
    + intros e He. unfold c2 in *. destruct b; simpl in He.
      * rewrite (Hkeep e He). simpl. rewrite Hq.
        apply lookup_delete_ne. apply not_eq_sym, Hno. by eapply skipped_subseteq.
      * apply elem_of_cons in He as [->|He].
        -- rewrite Hout by done. by rewrite Hq.
        -- rewrite (Hkeep e He). by rewrite Hq.
    + intros e He Hns. unfold c2 in *. destruct b; simpl in Hns.
      * apply elem_of_cons in He as [->|He].
        -- rewrite Hout by done. simpl. apply lookup_delete_eq.
        -- by apply Hgone.
      * apply not_elem_of_cons in Hns as [Hne' Hns].
        apply elem_of_cons in He as [->|He]; [done|]. by apply Hgone.
    + intros i Hi. rewrite fmap_cons in Hi. apply not_elem_of_cons in Hi as [Hne' Hi].
      rewrite (Hout i Hi). unfold c2. destruct b; simpl; rewrite Hq; [|done].
      by apply lookup_delete_ne.
Qed.

(** [for (const ev of leftovers) await removeEvent(ev.id)] *)
Lemma removeAll_run (l : list StoredQueuedEvent) (c : Client S) :
  ∃ c', removeAll l c = (Fulfilled (), c')
    ∧ effects c' = effects c ++ (Removed ∘ id <$> l)
    ∧ isFlushing c' = isFlushing c ∧ isSyncing c' = isSyncing c
    ∧ (∀ ev, ev ∈ l → records (queue c') !! id ev = None)
    ∧ (∀ i, i ∉ id <$> l → records (queue c') !! i = records (queue c) !! i).
Proof.
  revert c. induction l as [|ev l IH]; intros c.
  - exists c. split; [done|]. rewrite app_nil_r. repeat split; try done.
    all: intros ev Hin; by apply elem_of_nil in Hin.
  - destruct (IH (setQueue (removeEvent (id ev)) (perform (Removed (id ev)) c)))
      as (c' & Hrun & Heff & Hfl & Hsy & Hgone & Hout).
    exists c'. split; [|split; [|split; [|split; [|split]]]]; try done.
    + rewrite Heff. simpl. by rewrite <- app_assoc.
    + intros e He. apply elem_of_cons in He as [->|He]; [|by apply Hgone].
      destruct (decide (id ev ∈ id <$> l)) as [Hin|Hin].
      * apply list_elem_of_fmap in Hin as (e' & Heq & He'). rewrite Heq. by apply Hgone.
      * rewrite (Hout _ Hin). simpl. apply lookup_delete_eq.
    + intros i Hi. rewrite fmap_cons in Hi. apply not_elem_of_cons in Hi as [Hne Hi].
      rewrite (Hout i Hi). simpl. by apply lookup_delete_ne.
Qed.

Lemma own_removals (l : list StoredQueuedEvent) :
  own (Removed ∘ id <$> l) = Removed ∘ id <$> l.
Proof.
  induction l as [|ev l IH]; [done|]. rewrite fmap_cons. simpl.
  by rewrite own_Removed, IH.
Qed.

Lemma skipped_sublist evs bs : skipped evs bs `sublist_of` evs.
Proof.
  revert bs. induction evs as [|e evs IH]; intros [|[] bs]; simpl;
    try apply sublist_nil_l.
  - by apply sublist_cons.
  - by apply sublist_skip.
Qed.

Lemma NoDup_getAllEvents_ids st : NoDup (id <$> getAllEvents st).
Proof. rewrite getAllEvents_Permutation. apply NoDup_stored_ids. Qed.

Lemma elem_of_getAllEvents st ev :
  ev ∈ getAllEvents st ↔ records st !! id ev = Some (enqueuedAt ev, event ev).
Proof. rewrite getAllEvents_Permutation. apply elem_of_stored. Qed.

(** After the loop the queue holds exactly the entries that failed. *)
Lemma leftovers_are_skipped (q q1 : ObjectStore) bs :
  let evs := getAllEvents q in
  (∀ ev, ev ∈ skipped evs bs → records q1 !! id ev = records q !! id ev) →
  (∀ ev, ev ∈ evs → ev ∉ skipped evs bs → records q1 !! id ev = None) →
  (∀ i, i ∉ id <$> evs → records q1 !! i = records q !! i) →
  getAllEvents q1 ≡ₚ skipped evs bs.
Proof.
  intros evs Hkeep Hgone Hout.
  apply NoDup_Permutation.
  - eapply NoDup_fmap_1, NoDup_getAllEvents_ids.
  - eapply sublist_NoDup; [|apply skipped_sublist].
    eapply NoDup_fmap_1, NoDup_getAllEvents_ids.
  - intros ev. rewrite elem_of_getAllEvents. split.
    + intros Hev. destruct (decide (id ev ∈ id <$> evs)) as [Hin|Hin].
      * apply list_elem_of_fmap in Hin as (e' & Heq & He').
        destruct (decide (e' ∈ skipped evs bs)) as [Hs|Hs].
        -- rewrite Heq, (Hkeep e' Hs) in Hev.
           apply elem_of_getAllEvents in He'. rewrite He' in Hev.
           destruct ev, e'; simpl in *. by simplify_eq.
        -- rewrite Heq, (Hgone e' He' Hs) in Hev. done.
      * rewrite (Hout _ Hin) in Hev. apply elem_of_getAllEvents in Hev.
        destruct Hin. by apply list_elem_of_fmap_2.
    + intros Hs. rewrite (Hkeep ev Hs). apply elem_of_getAllEvents.
      by eapply skipped_subseteq.
Qed.

(** The text of the toast that closes a pass: all synced, or how many
    changes were discarded. *)
Lemma discardedMessage_text (remaining : nat) :
  discardedMessage remaining
  = pretty remaining +:+ " change" +:+ (if bool_decide (1 < remaining)%nat then "s" else "")
      +:+ " could not be synced and were discarded".
Proof. reflexivity. Qed.

(** A whole pass of [flushQueue] from an idle hook. *)
Lemma flushQueue_run (c : Client S) :
  isFlushing c = false →
  let evs := getAllEvents (queue c) in
  ∃ bs es leftovers new c',
    flushQueue c = (Fulfilled (), c')
    ∧ Chunks evs bs es
    ∧ leftovers ≡ₚ skipped evs bs ∧ Fifo leftovers
    ∧ records (queue c') = ∅
    ∧ isFlushing c' = false ∧ isSyncing c' = false
    ∧ effects c' = effects c ++ new
    ∧ (evs = [] → new = [])
    ∧ (evs ≠ [] →
         own new =
           [Toasted (syncingMessage (length evs)) info] ++ es
           ++ (if bool_decide (length (skipped evs bs) = 0)%nat
               then [Toasted syncedMessage success]
               else Toasted (discardedMessage (length (skipped evs bs))) error
                      :: (Removed ∘ id <$> leftovers))).
Proof.
  intros Hidle evs.
  set (ca := setIsSyncing true (setIsFlushing true c)).
  destruct (decide (evs = [])) as [Hnil|Hnil].
  - exists [], [], [], [], (setIsFlushing false (setIsSyncing false ca)).
    assert (Hempty : records (queue c) = ∅).
    { apply map_empty. intros i. destruct (records (queue c) !! i) as [[a e]|] eqn:Hi; [|done].
      assert (mkStored i a e ∈ evs) as Hin by by apply elem_of_getAllEvents.
      rewrite Hnil in Hin. by apply elem_of_nil in Hin. }
    split.
    { unfold flushQueue. rewrite Hidle.
      cbv [bind act tryFinally getEvents ret]. fold ca.
      change (getAllEvents (queue ca)) with evs. by rewrite Hnil. }
    rewrite Hnil. split; [constructor|]. split; [done|]. split; [constructor|].
    split; [done|]. split; [done|]. split; [done|].
    split; [simpl; by rewrite app_nil_r|]. by split.
  - set (cb := showToast (syncingMessage (length evs)) info ca).
    destruct (replayAll_run evs cb (NoDup_getAllEvents_ids _))
      as (bs & es & c1 & Hloop & Hch & Heff & Hfl & Hsy & Hkeep & Hgone & Hout).
    assert (Hleft : getAllEvents (queue c1) ≡ₚ skipped evs bs).
    { by apply (leftovers_are_skipped (queue c) (queue c1) bs). }
    assert (Hcount : countEvents (queue c1) = length (skipped evs bs)).
    { by rewrite <- length_stored, <- getAllEvents_Permutation, Hleft. }
    exists bs, (own es), (getAllEvents (queue c1)).
    destruct (decide (countEvents (queue c1) = 0%nat)) as [Hzero|Hsome].
    + exists ([Toasted (syncingMessage (length evs)) info] ++ es
              ++ [Toasted syncedMessage success]),
             (setIsFlushing false (setIsSyncing false
                (setQueueLength 0 (showToast syncedMessage success c1)))).
      split.
      { unfold flushQueue. rewrite Hidle.
        cbv [bind act tryFinally getEvents ret toast]. fold ca.
        change (getAllEvents (queue ca)) with evs.
        rewrite bool_decide_eq_false_2 by (by destruct evs).
        fold cb. rewrite Hloop. by rewrite bool_decide_eq_true_2. }
      split; [done|]. split; [done|]. split; [apply sortBy_sorted|].
      split; [by apply map_size_empty_iff|]. split; [done|]. split; [done|].
      split; [simpl; rewrite Heff; simpl; by rewrite <- !app_assoc|].
      split; [done|]. intros _.
      rewrite <- Hcount, bool_decide_eq_true_2 by done.
      own_effects. done.
    + set (cd := showToast (discardedMessage (countEvents (queue c1))) error c1).
      destruct (removeAll_run (getAllEvents (queue c1)) cd)
        as (c2 & Hrem & Heff2 & Hfl2 & Hsy2 & Hgone2 & Hout2).
      exists ([Toasted (syncingMessage (length evs)) info] ++ es
              ++ Toasted (discardedMessage (countEvents (queue c1))) error
                   :: (Removed ∘ id <$> getAllEvents (queue c1))),
             (setIsFlushing false (setIsSyncing false (setQueueLength 0 c2))).
      split.
      { unfold flushQueue. rewrite Hidle.
        cbv [bind act tryFinally getEvents ret toast]. fold ca.
        change (getAllEvents (queue ca)) with evs.
        rewrite bool_decide_eq_false_2 by (by destruct evs).
        fold cb. rewrite Hloop. rewrite bool_decide_eq_false_2 by done.
        fold cd. change (queue cd) with (queue c1). by rewrite Hrem. }
      split; [done|]. split; [done|]. split; [apply sortBy_sorted|].
      split.
      { simpl. apply map_empty. intros i.
        destruct (decide (i ∈ id <$> getAllEvents (queue c1))) as [Hin|Hin].
        - apply list_elem_of_fmap in Hin as (e & -> & He). by apply Hgone2.
        - rewrite (Hout2 i Hin). simpl.
          destruct (records (queue c1) !! i) as [[a e]|] eqn:Hi; [|done].
          destruct Hin. apply list_elem_of_fmap. exists (mkStored i a e).
          split; [done|]. by apply elem_of_getAllEvents. }
      split; [done|]. split; [done|].
      split; [simpl; rewrite Heff2; simpl; rewrite Heff; simpl; by rewrite <- !app_assoc|].
      split; [done|]. intros _.
      rewrite <- Hcount, bool_decide_eq_false_2 by done.
      own_effects. by rewrite own_removals.
Qed.

Lemma replayAll_app (l1 l2 : list StoredQueuedEvent) (c : Client S) :
  replayAll (l1 ++ l2) c = bind (replayAll l1) (λ _, replayAll l2) c.
Proof.
  revert c. induction l1 as [|ev l1 IH]; intros c; [reflexivity|].
  simpl. cbv [bind] in *.
  destruct (replayOne ev c) as [[[]|] c1]; [| |reflexivity].
  - cbv [remove act]. by rewrite IH.
  - cbv [ret]. by rewrite IH.
Qed.

(** C9. [getAllEvents] returns exactly the entries of the queue, each once,
    in ascending order of [enqueuedAt].  The loop of a pass takes them one
    after the other: the turn of an entry is its replay, which reports a
    success exactly when the server completed the entry (granted its lock,
    if it takes one, and answered its mutation with a success) and then has
    sent the requests of the entry up to and including the mutation; after a
    success the record of the entry is deleted from the queue; and the rest
    of the list is replayed from the tab as this turn left it.  So the
    effects of a whole pass are those of the first entry, then those of the
    second, and so on, and the pass leaves the queue empty. *)
Theorem drain_is_fifo_and_replay_follows_it (c : Client S) :
  (∀ ev, ev ∈ getAllEvents (queue c)
         ↔ records (queue c) !! id ev = Some (enqueuedAt ev, event ev))
  ∧ NoDup (id <$> getAllEvents (queue c))
  ∧ length (getAllEvents (queue c)) = countEvents (queue c)
  ∧ Fifo (getAllEvents (queue c))
  ∧ (∀ l1 l2 c0, replayAll (l1 ++ l2) c0 = bind (replayAll l1) (λ _, replayAll l2) c0)
  ∧ (∀ ev rest,
       ∃ b c1 es c2,
         replayOne ev c = (Fulfilled b, c1)
         ∧ queue c1 = queue c
         ∧ effects c1 = effects c ++ es
         ∧ Attempt (event ev) b (own es)
         ∧ (b = true ↔ ∃ s', Completes (event ev) (server c) s')
         ∧ (b = true → Completes (event ev) (server c) (server c1))
         ∧ replayAll (ev :: rest) c = replayAll rest c2
         ∧ records (queue c2)
           = (if b then delete (id ev) (records (queue c)) else records (queue c))
         ∧ effects c2 = effects c1 ++ (if b then [Removed (id ev)] else [])
         ∧ server c2 = server c1 ∧ tasks c2 = tasks c1)
  ∧ (isFlushing c = false → getAllEvents (queue c) ≠ [] →
       ∃ bs es new tail c',
         flushQueue c = (Fulfilled (), c')
         ∧ Chunks (getAllEvents (queue c)) bs es
         ∧ effects c' = effects c ++ new
         ∧ own new =
             [Toasted (syncingMessage (length (getAllEvents (queue c)))) info]
             ++ es ++ tail
         ∧ Forall (λ e, ∀ r, e ≠ Sent r) tail
         ∧ records (queue c') = ∅).
Proof.
  split; [apply elem_of_getAllEvents|].
  split; [apply NoDup_getAllEvents_ids|].
  split; [by rewrite getAllEvents_Permutation, length_stored|].
  split; [apply sortBy_sorted|].
  split; [apply replayAll_app|].
  split.
  - intros ev rest.
    destruct (replayOne_run ev c) as (b & c1 & es & Hone & Hsame & Heff & Hatt & Hyes & Hno).
    destruct Hsame as (Hq & _).
    exists b, c1, es,
      (if b then setQueue (removeEvent (id ev)) (perform (Removed (id ev)) c1) else c1).
    split; [exact Hone|]. split; [exact Hq|]. split; [exact Heff|]. split; [exact Hatt|].
    split.
    { split; [intros Hb; eexists; by apply Hyes|].
      intros [s' Hs']. destruct b; [done|]. by destruct (Hno eq_refl s'). }
    split; [exact Hyes|].
    split; [by apply replayAll_cons|].
    destruct b; simpl; rewrite ?Hq, ?app_nil_r; done.
  - intros Hidle Hne.
    destruct (flushQueue_run c Hidle)
      as (bs & es & leftovers & new & c' & Hrun & Hch & _ & _ & Hempty & _ & _ & Heff & _ & Hown).
    eexists bs, es, new, _, c'. split; [exact Hrun|]. split; [exact Hch|].
    split; [exact Heff|]. split; [exact (Hown Hne)|]. split; [|exact Hempty].
    case_bool_decide.
    + by repeat constructor.
    + constructor; [done|]. apply Forall_fmap, Forall_forall. by intros.
Qed.

(** C5. When the server denies the lock of an entry, [replayOne] sends
    nothing else for it, shows the conflict toast and reports a failure; the
    entry stays in the queue and the loop goes on with the entries after it.
    A whole pass gives every entry of the queue its turn whatever happened to
    the ones before; at its end the entries that failed are counted, an
    error toast that begins with their number says that so many changes were
    discarded (or the success toast is shown when none failed), each of them
    is removed, and the queue is empty. *)
Theorem denied_entry_is_skipped_and_leftovers_dropped (c : Client S) :
  (∀ ev rest k taskId userId data s',
     lockFor (event ev) = Some (k, taskId, userId) →
     serveAcquire k taskId userId (server c) = (Failed data, s') →
     lockSuccess data = Some false →
     ∃ noise,
       replayOne ev c =
         (Fulfilled false,
          showToast (conflictMessage (event ev)) error
            (deliverAll (broadcastsSince (server c) s')
               (setServer s' (perform (Sent (AcquireReq k taskId userId)) c))))
       ∧ queue (replayOne ev c).2 = queue c
       ∧ effects (replayOne ev c).2
         = effects c ++ Sent (AcquireReq k taskId userId) :: noise
             ++ [Toasted (conflictMessage (event ev)) error]
       ∧ Noise noise
       ∧ replayAll (ev :: rest) c = replayAll rest (replayOne ev c).2)
  ∧ (∀ tid ti de uid ids st,
       conflictMessage (UPDATE_TITLE tid ti de uid)
         = "Could not sync title edit for task — edit locked by another user, skipped"
       ∧ conflictMessage (UPDATE_STATUS tid st uid)
         = "Could not sync status change — task is locked by another user, skipped"
       ∧ conflictMessage (REORDER_TASKS tid uid ids)
         = "Could not sync reorder — task is locked by another user, skipped")
  ∧ (isFlushing c = false →
     ∃ bs es leftovers new c',
       flushQueue c = (Fulfilled (), c')
       ∧ Chunks (getAllEvents (queue c)) bs es
       ∧ leftovers ≡ₚ skipped (getAllEvents (queue c)) bs
       ∧ records (queue c') = ∅
       ∧ countEvents (queue c') = 0%nat
       ∧ getAllEvents (queue c') = []
       ∧ isFlushing c' = false
       ∧ effects c' = effects c ++ new
       ∧ (getAllEvents (queue c) ≠ [] →
            own new =
              [Toasted (syncingMessage (length (getAllEvents (queue c)))) info]
              ++ es
              ++ (if bool_decide (length (skipped (getAllEvents (queue c)) bs) = 0)%nat
                  then [Toasted "All offline changes synced!" success]
                  else
                    Toasted
                      (pretty (length (skipped (getAllEvents (queue c)) bs))
                       +:+ " change"
                       +:+ (if bool_decide
                                 (1 < length (skipped (getAllEvents (queue c)) bs))%nat
                            then "s" else "")
                       +:+ " could not be synced and were discarded") error
                    :: (Removed ∘ id <$> leftovers)))).
Proof.
  split; [|split].
  - intros ev rest k taskId userId data s' Hlock Hdenied Hfalse.
    destruct (deliverAll_frame (broadcastsSince (server c) s')
                (setServer s' (perform (Sent (AcquireReq k taskId userId)) c)))
      as ((Hq & _) & _ & noise & Heff & Hnoise).
    exists noise.
    assert (Hone : replayOne ev c =
              (Fulfilled false,
               showToast (conflictMessage (event ev)) error
                 (deliverAll (broadcastsSince (server c) s')
                    (setServer s' (perform (Sent (AcquireReq k taskId userId)) c))))).
    { destruct data as [su lb]. simpl in Hfalse. subst su.
      destruct ev as [i at_ e].
      destruct e as [ti de tmp|tid ti de uid|tid st uid|tid uid ids|tid];
        simpl in Hlock; try discriminate; injection Hlock as <- <- <-;
        cbv [replayOne replayBody tryCatch bind ret reject act toast
             acquireEditLock acquireLock acquire request readSuccess event
             conflictMessage];
        change (server (perform ?e c)) with (server c);
        rewrite Hdenied; reflexivity. }
    rewrite Hone. split; [done|]. split; [simpl; by rewrite Hq|]. split.
    { simpl. rewrite Heff. simpl. by rewrite <- !app_assoc. }
    split; [done|]. by rewrite (replayAll_cons ev rest c _ _ Hone).
  - intros. by repeat split.
  - intros Hidle.
    destruct (flushQueue_run c Hidle)
      as (bs & es & leftovers & new & c' & Hrun & Hch & Hleft & _ & Hempty & Hfl & _
          & Heff & _ & Hown).
    exists bs, es, leftovers, new, c'. split; [exact Hrun|]. split; [exact Hch|].
    split; [exact Hleft|]. split; [exact Hempty|].
    split; [unfold countEvents; by rewrite Hempty|].
    split; [|split; [exact Hfl|split; [exact Heff|exact Hown]]].
    apply Permutation_nil_r. rewrite getAllEvents_Permutation.
    unfold stored. by rewrite Hempty, map_to_list_empty.
Qed.

(** C6, as the code behaves.  When a queued [CREATE_TASK] is replayed and the
    server creates the task, it broadcasts the creation and then answers.
    Handled in that order, the broadcast appends the server task to the
    board (no card has its id yet) and the answer is then handed to
    [onTaskCreated], which overwrites the first card flagged optimistic whose
    title is the title of the task: the board ends with the task twice, once
    in the place of the placeholder and once at the end, and one card longer
    than before.  Had the answer been handled before the broadcast, the
    placeholder would have been swapped and nothing appended.  In both cases
    the [tempId] of the entry plays no part. *)
Theorem replayed_create_shows_the_task_twice
    (ev : StoredQueuedEvent) (c : Client S)
    (ti : string) (de : option string) (tempId : string) (t : TaskView) (s' : S) :
  event ev = CREATE_TASK ti de tempId →
  serveCreate ti de (server c) = (Replied t, s') →
  broadcastsSince (server c) s' = [TaskCreatedEv t] →
  replayOne ev c =
    (Fulfilled true,
     onTaskCreated (fromServer t)
       (handleTaskCreated (fromServer t)
          (setServer s' (perform (Sent (CreateTaskReq ti de)) c))))
  ∧ (∀ i p,
       list_find (λ p, _isOptimistic p = true ∧ taskTitle p = taskTitle (fromServer t))
                 (tasks c)
         = Some (i, p) →
       (∀ q, q ∈ tasks c → taskId q ≠ viewId t) →
       tasks (replayOne ev c).2 = <[i := fromServer t]> (tasks c) ++ [fromServer t]
       ∧ length (tasks (replayOne ev c).2) = Datatypes.S (length (tasks c))
       ∧ (i < length (tasks c))%nat
       ∧ tasks (replayOne ev c).2 !! i = Some (fromServer t)
       ∧ tasks (replayOne ev c).2 !! length (tasks c) = Some (fromServer t)
       ∧ tasks (handleTaskCreated (fromServer t) (onTaskCreated (fromServer t) c))
         = <[i := fromServer t]> (tasks c))
  ∧ (∀ tempId',
       replayOne (mkStored (id ev) (enqueuedAt ev) (CREATE_TASK ti de tempId')) c
         = replayOne ev c).
Proof.
  intros Hev Hsrv Hcast.
  assert (Hone : ∀ e, (∃ x, event e = CREATE_TASK ti de x) →
            replayOne e c =
              (Fulfilled true,
               onTaskCreated (fromServer t)
                 (handleTaskCreated (fromServer t)
                    (setServer s' (perform (Sent (CreateTaskReq ti de)) c))))).
  { intros e [x Hx].
    cbv [replayOne replayBody tryCatch bind ret reject act createTask thenData request].
    rewrite Hx. cbv beta iota.
    change (server (perform ?e c)) with (server c).
    rewrite Hsrv, Hcast. reflexivity. }
  split; [apply Hone; by eexists|]. split.
  - intros i p Hfind Hnew. rewrite (Hone ev) by by eexists.
    assert (Hnone : list_find (λ q, taskId q = taskId (fromServer t)) (tasks c) = None).
    { apply list_find_None, Forall_forall. intros q Hq. by apply Hnew. }
    apply list_find_Some in Hfind as Hfound. destruct Hfound as (Hi & Hp & Hfirst).
    apply lookup_lt_Some in Hi as Hlt.
    assert (Hboard : tasks (onTaskCreated (fromServer t)
                       (handleTaskCreated (fromServer t)
                          (setServer s' (perform (Sent (CreateTaskReq ti de)) c))))
                     = <[i := fromServer t]> (tasks c) ++ [fromServer t]).
    { cbv [onTaskCreated handleTaskCreated setTasks tasks setServer perform].
      destruct c as [q ts fl sy ql on nw es sv]. simpl in *. rewrite Hnone.
      erewrite list_find_app_l by exact Hfind.
      by rewrite insert_app_l. }
    cbn [snd]. rewrite Hboard.
    split; [done|]. split; [by rewrite length_app, length_insert, Nat.add_1_r|].
    split; [done|].
    split; [rewrite lookup_app_l by (by rewrite length_insert);
            by apply list_lookup_insert_eq|].
    split.
    { rewrite lookup_app_r by (by rewrite length_insert).
      by rewrite length_insert, Nat.sub_diag. }
    cbv [onTaskCreated handleTaskCreated setTasks tasks].
    destruct c as [q ts fl sy ql on nw es sv]. simpl in *. rewrite Hfind.
    destruct (list_find_elem_of (λ q, taskId q = taskId (fromServer t))
                (<[i := fromServer t]> ts) (fromServer t)) as [[j x] ->]; [|done|done].
    apply list_elem_of_lookup. exists i. by apply list_lookup_insert_eq.
  - intros tempId'. rewrite (Hone ev) by by eexists.
    apply Hone. by eexists.
Qed.

End Replay.

Import Scenario TabScenario.

Lemma drain_is_fifo_and_replay_follows_it_witness :
  Fifo (getAllEvents (queue reconnected))
  ∧ ∃ bs es new tail (c' : Client World),
      flushQueue reconnected = (Fulfilled (), c')
      ∧ Chunks (getAllEvents (queue reconnected)) bs es
      ∧ effects c' = effects reconnected ++ new
      ∧ own new =
          [Toasted (syncingMessage (length (getAllEvents (queue reconnected)))) info]
          ++ es ++ tail
      ∧ Forall (λ e, ∀ r, e ≠ Sent r) tail
      ∧ records (queue c') = ∅.
Proof.
  pose proof (drain_is_fifo_and_replay_follows_it reconnected)
    as (_ & _ & _ & Hfifo & _ & _ & Hpass).
  split; [exact Hfifo|]. apply Hpass; [reflexivity|].
  intros Hnil. vm_compute in Hnil. discriminate Hnil.
Defined.

Lemma denied_entry_is_skipped_and_leftovers_dropped_witness :
  replayOne blockedMove reconnected =
    (Fulfilled false,
     showToast "Could not sync status change — task is locked by another user, skipped"
       error (perform (Sent (AcquireReq DragLock t1 bob)) reconnected))
  ∧ (∃ bs es leftovers (new : list Effect) (c' : Client World),
       flushQueue reconnected = (Fulfilled (), c')
       ∧ Chunks (getAllEvents (queue reconnected)) bs es
       ∧ leftovers ≡ₚ skipped (getAllEvents (queue reconnected)) bs
       ∧ records (queue c') = ∅)
  ∧ Toasted "1 change could not be synced and were discarded" error
      ∈ effects (flushQueue reconnected).2.
Proof.
  pose proof (denied_entry_is_skipped_and_leftovers_dropped reconnected)
    as (Hdenied & _ & Hpass).
  split; [|split].
  - destruct (Hdenied blockedMove [] DragLock t1 bob
                (mkLockData (Some false) (Some (mkUser alice "Alice" "alice@example.com")))
                (server reconnected)) as (noise & Hone & _).
    + reflexivity.
    + vm_compute. reflexivity.
    + reflexivity.
    + exact Hone.
  - destruct (Hpass eq_refl) as (bs & es & leftovers & new & c' & Hrun & Hch & Hleft & Hempty & _).
    exists bs, es, leftovers, new, c'.
    split; [exact Hrun|]. split; [exact Hch|]. split; [exact Hleft|exact Hempty].
  - apply (bool_decide_unpack _). vm_compute. reflexivity.
Defined.

Lemma replayed_create_shows_the_task_twice_witness :
  tasks oneDraft = [optimisticTask tmpX "A" t0]
  ∧ (replayOne firstDraft oneDraft).1 = Fulfilled true
  ∧ tasks (replayOne firstDraft oneDraft).2 = [fromServer sixthCard; fromServer sixthCard].
Proof.
  destruct (replayed_create_shows_the_task_twice
              firstDraft oneDraft "A" None tmpX sixthCard
              (serveCreate "A" None (server oneDraft)).2)
    as (Hone & Hdup & _).
  - reflexivity.
  - vm_compute. reflexivity.
  - vm_compute. reflexivity.
  - split; [vm_compute; reflexivity|]. split; [by rewrite Hone|].
    destruct (Hdup 0%nat (optimisticTask tmpX "A" t0)) as (Hboard & _).
    + vm_compute. reflexivity.
    + intros q Hq.
      assert (Hcards : tasks oneDraft = [optimisticTask tmpX "A" t0])
        by (vm_compute; reflexivity).
      rewrite Hcards in Hq.
      apply elem_of_cons in Hq as [-> | Hq]; [|by apply elem_of_nil in Hq].
      vm_compute. discriminate.
    + rewrite Hboard. vm_compute. reflexivity.
Defined.

(** C6 as stated fails, twice over.

    Scenario D: offline, one card "A" is drafted; the tab reconnects and the
    queue is flushed against the backend.  The board ends with the created
    task twice and without the placeholder: two cards with the id the server
    assigned.

    And the placeholder is not found by its [tempId]: offline, two cards
    titled "A" are drafted and the first draft is deleted again; its creation
    stays queued.  On replay of that entry, whose [tempId] is [tmpX], the
    card that is overwritten is the draft whose id is [tmpY], whereas a match
    on [tempId] and title finds no placeholder and leaves that draft
    alone. *)
Lemma replayed_draft_is_duplicated_and_tempId_is_ignored :
  tasks oneDraft = [optimisticTask tmpX "A" t0]
  ∧ getAllEvents (queue oneDraft) = [firstDraft]
  ∧ tasks (flushQueue oneDraft).2 = [fromServer sixthCard; fromServer sixthCard]
  ∧ ¬ NoDup (taskId <$> tasks (flushQueue oneDraft).2)
  ∧ tasks twoDraftsOneDeleted = [optimisticTask tmpY "A" (t0 + 5)]
  ∧ getAllEvents (queue twoDraftsOneDeleted)
      = [firstDraft; mkStored 2 (t0 + 5) (CREATE_TASK "A" None tmpY)]
  ∧ event firstDraft = CREATE_TASK "A" None tmpX
  ∧ tmpX ≠ tmpY
  ∧ tasks (replayOne firstDraft twoDraftsOneDeleted).2
      = [fromServer sixthCard; fromServer sixthCard]
  ∧ onTaskCreatedByTempId tmpX (fromServer sixthCard)
      (tasks (handleTaskCreated (fromServer sixthCard) twoDraftsOneDeleted))
      = [optimisticTask tmpY "A" (t0 + 5); fromServer sixthCard].
Proof.
  split; [vm_compute; reflexivity|]. split; [vm_compute; reflexivity|].
  assert (Hflush : tasks (flushQueue oneDraft).2
                   = [fromServer sixthCard; fromServer sixthCard])
    by (vm_compute; reflexivity).
  split; [exact Hflush|]. split.
  { rewrite Hflush. intros Hnd. apply NoDup_cons in Hnd as [Hin _].
    apply Hin. apply elem_of_cons. by left. }
  split; [vm_compute; reflexivity|]. split; [vm_compute; reflexivity|].
  split; [reflexivity|]. split; [discriminate|].
  split; vm_compute; reflexivity.
Qed.

End ReplaySpec.
